(** * Transaction cache and status-poll controller

    A shallow embedding of the transaction hooks
    ([useTransactionStatusRefresh.ts], [useTransactionsManager.ts],
    [useTransactionPagination.ts], [useTransactionsState],
    [useTransactionFilters], [useTransactionObservables], and the
    cash-deposit predicates of [useTransactionTypes.ts] and the concern
    calls of [useTransactionComplaints.ts]) together with the properties of
    the polling rate limiter and of the list cache.
    The repository also holds the same logic as one combined hook
    ([useTransactions.ts]); the development follows the split hooks.

    Conventions.
    - Wall-clock instants ([new Date()], [Date.getTime()]) are epoch
      milliseconds in [Z]; a quantity in seconds [s] is compared with a
      millisecond difference [ms] as [ms] against [1000 * s], which is what
      [(ms / 1000) <= s] computes on JavaScript numbers.
    - A JavaScript value that may be [undefined] is an [option]; a counter
      that may be [undefined], [null] or a number is a [JsNum].
    - Calls to collaborators (the REST transport, the snack bar, the
      preference store, [forceUpdate]) are recorded in the result, so that
      "performs no fetch" and "leaves the store unchanged" are statements
      about values. *)

From Stdlib Require Import ZArith Lia.
From stdpp Require Import base option list list_numbers strings pretty gmap.

Local Open Scope Z_scope.

(** ** JavaScript numbers that may be absent *)

Inductive JsNum : Type :=
| JUndefined
| JNull
| JNum (n : Z).

#[global] Instance JsNum_eq_dec : EqDecision JsNum.
Proof. solve_decision. Defined.

(** [v !== null] *)
Definition js_not_null (v : JsNum) : bool :=
  match v with JNull => false | _ => true end.

(** [a === b] on counters (no [NaN] can be stored in a counter: they are
    read from JSON). *)
Definition js_strict_eq (a b : JsNum) : bool :=
  match a, b with
  | JUndefined, JUndefined => true
  | JNull, JNull => true
  | JNum x, JNum y => x =? y
  | _, _ => false
  end.

(** [ToNumber]: [undefined] is [NaN] (here [None]), [null] is [0]. *)
Definition js_to_number (v : JsNum) : option Z :=
  match v with
  | JUndefined => None
  | JNull => Some 0
  | JNum n => Some n
  end.

(** [a < b]: false as soon as one side is [NaN]. *)
Definition js_lt (a b : JsNum) : bool :=
  match js_to_number a, js_to_number b with
  | Some x, Some y => x <? y
  | _, _ => false
  end.

(** [ms / 1000 >= s] for a millisecond count [ms] and a counter [s]. *)
Definition js_seconds_ge (ms : Z) (s : JsNum) : bool :=
  match js_to_number s with
  | Some y => 1000 * y <=? ms
  | None => false
  end.

(** ** Data model *)

(** Modelled from the spec: the enumeration [TxnStatusType]
    ([../constants]) is not among the sources.  Its members are the ones
    the hooks compare against (the specification's success, declined and
    expired, and the delegate-initiated status), together with the literal
    ['PENDING']; they are taken to be distinct values, and every other
    status value is [OTHER_STATUS]. *)
Inductive TxnStatusType : Type :=
| PENDING
| SUCCESS
| DECLINED
| EXPIRED
| DELEGATE_INITIATED
| OTHER_STATUS (code : string).

#[global] Instance TxnStatusType_eq_dec : EqDecision TxnStatusType.
Proof. solve_decision. Defined.

(** Modelled from the spec: the enumeration [TxnPurposeCode]
    ([./SendMoneyService]) is not among the sources.  Its two members are
    the ones the cash-deposit predicate of the specification's exclusion
    policy compares against; every other purpose is [OTHER_PURPOSE]. *)
Inductive TxnPurposeCode : Type :=
| SEND_TO_SELF
| SEND_TO_OTHER
| OTHER_PURPOSE (code : string).

#[global] Instance TxnPurposeCode_eq_dec : EqDecision TxnPurposeCode.
Proof. solve_decision. Defined.

Record ReqChkTxnParams : Type := {
  currentCount : JsNum;
  maxCount : JsNum;
  checkPoint2 : JsNum;
}.

Record PayerInfo : Type := {
  role : option string;
  name : string;
}.

Record TxnInfo : Type := {
  isICDRequested : option bool;
  isReqChkTxnExhausted : option bool;
}.

Record Transaction : Type := {
  id : string;
  createdAt : Z;
  status : TxnStatusType;
  selfInitiated : option bool;
  purpose : option TxnPurposeCode;
  payerInfo : option PayerInfo;
  txnInfo : option TxnInfo;
  reqChkTxnParams : option ReqChkTxnParams;
}.

#[global] Instance ReqChkTxnParams_eq_dec : EqDecision ReqChkTxnParams.
Proof. solve_decision. Defined.
#[global] Instance PayerInfo_eq_dec : EqDecision PayerInfo.
Proof. solve_decision. Defined.
#[global] Instance TxnInfo_eq_dec : EqDecision TxnInfo.
Proof. solve_decision. Defined.
#[global] Instance Transaction_eq_dec : EqDecision Transaction.
Proof. solve_decision. Defined.

(** Truthiness of an optional boolean ([if (x)], [!x]). *)
Definition truthy (b : option bool) : bool := default false b.

(** [transaction?.txnInfo?.isReqChkTxnExhausted] *)
Definition txn_exhausted (t : option Transaction) : option bool :=
  (t ≫= txnInfo) ≫= isReqChkTxnExhausted.

(** [transaction?.payerInfo?.role] *)
Definition txn_role (t : Transaction) : option string :=
  payerInfo t ≫= role.

(** ** The status-poll rate limiter ([useTransactionStatusRefresh.ts]) *)

Module StatusRefresh.

(** Message keys handed to the translation function [t]. *)
Inductive MsgKey : Type :=
| PENDING_STATUS_LIMT_EXCEEDED_DEFAULT
| PENDING_STATUS_BLOCK
| SOMETHING_WRONG
| PENDING_STATUS_AFTER_SOME_TIME
| PENDING_TXN_DELEGATE_INITIATED_PRIMARY
| PENDING_TXN_DELEGATE_INITIATED_SECONDARY
| PENDING_STATUS_WITHIN_TWO_HOURS
| PENDING_STATUS_ATTEMPTS_EXCEEDED
| PENDING_STATUS_AFTER_TWO_HOURS_ATTEMPTS.

(** [SnackService.info] and [SnackService.error]. *)
Inductive Severity : Type := Info | Error.

(** The interpolation arguments of a message.  The displayed strings
    ([formattedTime], [refreshDoneCount], [remainingCount],
    [pluralizedText]) are computed from the values kept here: the instant
    [futureDate] ([None] is the invalid date), which [formatTime12Hr]
    renders in the device's time zone, and the two counters. *)
Inductive MsgArgs : Type :=
| NoArgs
| BlockArgs (reqChkTxnCheckPoint1 : Z)
| NameArgs (name : string)
| TimeArgs (futureDate : option Z)
| CountTimeArgs (current max : JsNum) (futureDate : option Z)
| CountArgs (current max : JsNum).

Record Snack : Type := {
  severity : Severity;
  key : MsgKey;
  args : MsgArgs;
}.

#[global] Instance MsgKey_eq_dec : EqDecision MsgKey.
Proof. solve_decision. Defined.
#[global] Instance Severity_eq_dec : EqDecision Severity.
Proof. solve_decision. Defined.
#[global] Instance MsgArgs_eq_dec : EqDecision MsgArgs.
Proof. solve_decision. Defined.
#[global] Instance Snack_eq_dec : EqDecision Snack.
Proof. solve_decision. Defined.

Definition info (k : MsgKey) (a : MsgArgs) : Snack :=
  {| severity := Info; key := k; args := a |}.
Definition error (k : MsgKey) (a : MsgArgs) : Snack :=
  {| severity := Error; key := k; args := a |}.

(** One element of the JSON list kept under
    [UserPreferenceKeys.reqChkTxnParams].  A key that [JSON.stringify]
    drops because its value is [undefined] reads back as [undefined], so
    the parsed list is the list that was written. *)
Record CheckpointRecord : Type := {
  transactionId : string;
  rec_reqChkTxnParams : option ReqChkTxnParams;
  rec_isReqChkTxnExhausted : option bool;
  refreshedCreatedAt : Z;
}.

#[global] Instance CheckpointRecord_eq_dec : EqDecision CheckpointRecord.
Proof. solve_decision. Defined.

(** What [refreshTranactionDetails(id)] settles to: the promise rejects
    (transport failure, or [validateResponse] on an error response), or it
    resolves to a response whose [transaction] may be missing. *)
Inductive FetchResult : Type :=
| Rejected
| Resolved (transaction : option Transaction).

(** Everything one call of [fetchTransactionStatusDetails] does. *)
Record Outcome : Type := {
  snacks : list Snack;                      (* SnackService calls, in order *)
  fetched : list string;                    (* refreshTranactionDetails(id) *)
  written : option (list CheckpointRecord); (* setPreference(..., data) *)
  refreshes : nat;                          (* forceUpdate() calls *)
  returned : option Transaction;            (* the resolved value *)
  rejected : bool;                          (* an uncaught TypeError *)
}.

(** The preference store after the call. *)
Definition store_after (store : list CheckpointRecord) (o : Outcome)
  : list CheckpointRecord :=
  default store (written o).

Definition said (s : Snack) : Outcome :=
  {| snacks := [s]; fetched := []; written := None; refreshes := 0;
     returned := None; rejected := false |}.

Definition uncaught : Outcome :=
  {| snacks := []; fetched := []; written := None; refreshes := 0;
     returned := None; rejected := true |}.

(** The [catch] arm of the three [try] blocks: the fetch was issued, the
    only effect left is the generic notification. *)
Definition caught (tid : string) : Outcome :=
  {| snacks := [error SOMETHING_WRONG NoArgs]; fetched := [tid];
     written := None; refreshes := 0; returned := None; rejected := false |}.

(** [refreshedTransaction?.transaction?.reqChkTxnParams ?? {}] followed by
    the destructuring of the three counters. *)
Definition counters (rt : option Transaction) : JsNum * JsNum * JsNum :=
  match rt ≫= reqChkTxnParams with
  | Some p => (currentCount p, maxCount p, checkPoint2 p)
  | None => (JUndefined, JUndefined, JUndefined)
  end.

(** [new Date(created.getTime() + checkPoint2 * 1000)] *)
Definition futureDate (created : Z) (cp2 : JsNum) : option Z :=
  (λ c, created + c * 1000) <$> js_to_number cp2.

(** [refreshedTransaction?.transaction?.status], compared with [!==] and
    [===] against members of [TxnStatusType]. *)
Definition status_is (rt : option Transaction) (s : TxnStatusType) : bool :=
  bool_decide (status <$> rt = Some s).

Definition isNonFinalStatus (rt : option Transaction) : bool :=
  negb (status_is rt SUCCESS) && negb (status_is rt DECLINED)
  && negb (status_is rt EXPIRED).

Definition when {A} (b : bool) (x : A) : list A := if b then [x] else [].

Definition handleTransactionStatusMessages
    (rt : option Transaction) (isExhausted : option bool)
    (role : option string) (name : string)
    (future : option Z) (cur max : JsNum) : list Snack :=
  let delegate :=
    status_is rt DELEGATE_INITIATED && js_strict_eq cur JNull
    && js_strict_eq max JNull in
  if delegate && bool_decide (role = Some "PRIMARY") then
    [error PENDING_TXN_DELEGATE_INITIATED_PRIMARY NoArgs]
  else if delegate && bool_decide (role = Some "SECONDARY") then
    [error PENDING_TXN_DELEGATE_INITIATED_SECONDARY (NameArgs name)]
  else
    when (truthy isExhausted && negb (status_is rt SUCCESS))
         (error PENDING_STATUS_LIMT_EXCEEDED_DEFAULT NoArgs)
    ++ when (negb (truthy isExhausted) && isNonFinalStatus rt)
         (info PENDING_STATUS_WITHIN_TWO_HOURS (CountTimeArgs cur max future))
    ++ when (negb (truthy isExhausted) && js_strict_eq max cur
             && isNonFinalStatus rt)
         (error PENDING_STATUS_ATTEMPTS_EXCEEDED
                (CountTimeArgs cur max future)).

(** The record [handleFirstTimeRefresh] puts in front of the parsed list. *)
Definition recordOf (tx : Transaction) : CheckpointRecord :=
  {| transactionId := id tx;
     rec_reqChkTxnParams := reqChkTxnParams tx;
     rec_isReqChkTxnExhausted := txn_exhausted (Some tx);
     refreshedCreatedAt := createdAt tx |}.

(** [None] is the [TypeError] raised by destructuring an absent
    [payerInfo]; nothing has been emitted when it is raised.  [tid] is the
    id the caller has just requested, [rt] the [transaction] of the
    answer. *)
Definition handleFirstTimeRefresh
    (tid : string) (rt : option Transaction)
    (parsedReqChkTxnData : list CheckpointRecord) : option Outcome :=
  let '(cur, max, cp2) := counters rt in
  let isExhausted := txn_exhausted rt in
  match rt with
  | None => None
  | Some tx =>
    match payerInfo tx with
    | None => None
    | Some payer =>
      let formattedTime := futureDate (createdAt tx) cp2 in
      let data := recordOf tx :: parsedReqChkTxnData in
      Some {| snacks :=
                handleTransactionStatusMessages rt isExhausted (role payer)
                  (name payer) formattedTime cur max;
              fetched := [tid];
              written :=
                if js_not_null cur && js_not_null max then Some data
                else None;
              refreshes := 1;
              returned := rt;
              rejected := false |}
    end
  end.

(** The two assignments to [parsedReqChkTxnData[reqChkTxnParamsIndex]]. *)
Definition refresh_record (rt : option Transaction) (r : CheckpointRecord)
  : CheckpointRecord :=
  {| transactionId := transactionId r;
     rec_reqChkTxnParams := rt ≫= reqChkTxnParams;
     rec_isReqChkTxnExhausted := txn_exhausted rt;
     refreshedCreatedAt := refreshedCreatedAt r |}.

Definition handleAfterCheckpoint2Refresh
    (transaction : Transaction) (parsedReqChkTxnData : list CheckpointRecord)
    (reqChkTxnParamsIndex : nat) (resp : FetchResult) : Outcome :=
  match resp with
  | Rejected => caught (id transaction)
  | Resolved rt =>
    let '(cur, max, _) := counters rt in
    let isExhausted := txn_exhausted rt in
    {| snacks :=
         when (truthy isExhausted && negb (status_is rt SUCCESS))
              (error PENDING_STATUS_LIMT_EXCEEDED_DEFAULT NoArgs)
         ++ when (negb (truthy isExhausted) && isNonFinalStatus rt)
              (info PENDING_STATUS_AFTER_TWO_HOURS_ATTEMPTS
                    (CountArgs cur max));
       fetched := [id transaction];
       written :=
         Some (alter (refresh_record rt) reqChkTxnParamsIndex
                     parsedReqChkTxnData);
       refreshes := 1;
       returned := rt;
       rejected := false |}
  end.

Definition handleWithinCheckpoint2Refresh
    (transaction : Transaction) (parsedReqChkTxnData : list CheckpointRecord)
    (reqChkTxnParamsIndex : nat) (formattedTime : option Z)
    (resp : FetchResult) : Outcome :=
  match resp with
  | Rejected => caught (id transaction)
  | Resolved rt =>
    let '(cur, max, _) := counters rt in
    {| snacks :=
         when (js_strict_eq max cur && isNonFinalStatus rt)
              (error PENDING_STATUS_ATTEMPTS_EXCEEDED
                     (CountTimeArgs cur max formattedTime))
         ++ when (negb (js_strict_eq max cur) && isNonFinalStatus rt)
              (info PENDING_STATUS_WITHIN_TWO_HOURS
                    (CountTimeArgs cur max formattedTime));
       fetched := [id transaction];
       written :=
         Some (alter (refresh_record rt) reqChkTxnParamsIndex
                     parsedReqChkTxnData);
       refreshes := 1;
       returned := rt;
       rejected := false |}
  end.

(** [msSinceCreated] is [now.getTime() - createdAt.getTime()]; the source
    divides it by 1000 before comparing it with [checkPoint2]. *)
Definition handleSubsequentRefresh
    (transaction : Transaction) (parsedReqChkTxnData : list CheckpointRecord)
    (reqChkTxnParamsIndex : nat) (msSinceCreated : Z)
    (resp : FetchResult) : Outcome :=
  match parsedReqChkTxnData !! reqChkTxnParamsIndex with
  | None => uncaught
  | Some r =>
    match rec_reqChkTxnParams r with
    | None => uncaught
    | Some p =>
      let isExhausted := truthy (rec_isReqChkTxnExhausted r) in
      let formattedTime := futureDate (refreshedCreatedAt r) (checkPoint2 p) in
      if negb isExhausted && js_seconds_ge msSinceCreated (checkPoint2 p) then
        handleAfterCheckpoint2Refresh transaction parsedReqChkTxnData
          reqChkTxnParamsIndex resp
      else if negb isExhausted && js_lt (currentCount p) (maxCount p) then
        handleWithinCheckpoint2Refresh transaction parsedReqChkTxnData
          reqChkTxnParamsIndex formattedTime resp
      else if isExhausted then
        said (error PENDING_STATUS_LIMT_EXCEEDED_DEFAULT NoArgs)
      else
        said (info PENDING_STATUS_AFTER_SOME_TIME (TimeArgs formattedTime))
    end
  end.

(** [parsedReqChkTxnData.findIndex(item => item.transactionId === id)];
    [None] is [-1]. *)
Definition findIndex (tid : string) (l : list CheckpointRecord) : option nat :=
  fst <$> list_find (λ item, transactionId item = tid) l.

(** The first-checkpoint gate. *)
Definition blocked (transaction : Transaction) (msSinceCreated : Z)
    (reqChkTxnCheckPoint1 : Z) : bool :=
  bool_decide (txn_role transaction ≠ Some "PRIMARY")
  && bool_decide (txn_role transaction ≠ Some "SECONDARY")
  && (msSinceCreated <=? 1000 * reqChkTxnCheckPoint1).

(** [now] is the instant read by [new Date()], [store] the parsed
    preference, [resp] what the transport answers if it is asked. *)
Definition fetchTransactionStatusDetails
    (now : Z) (store : list CheckpointRecord) (resp : FetchResult)
    (transaction : Transaction) (reqChkTxnCheckPoint1 : Z) : Outcome :=
  let isExhausted := txn_exhausted (Some transaction) in
  let msSinceCreated := now - createdAt transaction in
  if truthy isExhausted then
    said (info PENDING_STATUS_LIMT_EXCEEDED_DEFAULT NoArgs)
  else if blocked transaction msSinceCreated reqChkTxnCheckPoint1 then
    said (info PENDING_STATUS_BLOCK (BlockArgs reqChkTxnCheckPoint1))
  else
    match findIndex (id transaction) store with
    | None =>
      match resp with
      | Rejected => caught (id transaction)
      | Resolved rt =>
        default (caught (id transaction))
                (handleFirstTimeRefresh (id transaction) rt store)
      end
    | Some reqChkTxnParamsIndex =>
      handleSubsequentRefresh transaction store reqChkTxnParamsIndex
        msSinceCreated resp
    end.

(** One poll request: the instant, the transport's answer, the arguments. *)
Record Poll : Type := {
  poll_now : Z;
  poll_resp : FetchResult;
  poll_transaction : Transaction;
  poll_checkpoint1 : Z;
}.

Definition poll (store : list CheckpointRecord) (c : Poll) : Outcome :=
  fetchTransactionStatusDetails (poll_now c) store (poll_resp c)
    (poll_transaction c) (poll_checkpoint1 c).

(** Polls issued one after the other, each reading what the previous one
    left in the store; the outcomes come back in call order. *)
Fixpoint polls (store : list CheckpointRecord) (cs : list Poll)
  : list Outcome * list CheckpointRecord :=
  match cs with
  | [] => ([], store)
  | c :: cs' =>
    let o := poll store c in
    let '(os, store') := polls (store_after store o) cs' in
    (o :: os, store')
  end.

(** The transaction is marked exhausted, in the caller's copy or in the
    record that [findIndex] selects. *)
Definition exhausted_for (store : list CheckpointRecord) (t : Transaction)
  : Prop :=
  truthy (txn_exhausted (Some t)) = true
  ∨ ∃ i r, list_find (λ item, transactionId item = id t) store = Some (i, r)
           ∧ truthy (rec_isReqChkTxnExhausted r) = true.

End StatusRefresh.

(** ** The list cache ([useTransactionsManager.ts] and its helper hooks) *)

Module TransactionsManager.

(** [isICDCashDepositPendingTransaction] ([useTransactionTypes.ts]). *)
Definition isICDCashDepositPendingTransaction (transaction : Transaction)
  : bool :=
  bool_decide (status transaction = PENDING)
  && (bool_decide (selfInitiated transaction = Some true)
      || bool_decide (selfInitiated transaction = Some false))
  && bool_decide ((txnInfo transaction ≫= isICDRequested) = Some false)
  && (bool_decide (purpose transaction = Some SEND_TO_SELF)
      || bool_decide (purpose transaction = Some SEND_TO_OTHER)).

(** The predicate handed to [Array.prototype.filter] by every fetch. *)
Definition keep (txn : Transaction) : bool :=
  negb (isICDCashDepositPendingTransaction txn).

Record PaginatedTransactions : Type := {
  transactions : list Transaction;
  count : Z;
  hasNext : bool;
  fetchedTimestamp : option Z;
  showShimmer : bool;
  totalCbAmount : option string;
  reqChkTxnCheckPoint1 : option Z;
}.

(** Modelled from the spec: the wrapper [Maybe] ([../wrappers/Maybe]) is
    not among the sources.  Its three constructors are the ones the hooks
    call ([Maybe.unresolved()], [Maybe.of(data)], [Maybe.error(err)]); the
    specification names the states they stand for (Unresolved, Resolved or
    Loading with a payload, Failed with an error).  Only a value built by
    [Maybe.of] carries [data]. *)
Inductive Maybe (T : Type) : Type :=
| Maybe_unresolved
| Maybe_of (data : T)
| Maybe_error (message : string).
Arguments Maybe_unresolved {T}.
Arguments Maybe_of {T} data.
Arguments Maybe_error {T} message.

Definition Maybe_data {T} (m : Maybe T) : option T :=
  match m with Maybe_of d => Some d | _ => None end.

(** What [RestClient.silentPost('transactionsList', ...)] resolves to. *)
Record ListResponse : Type := {
  resp_error : bool;
  userMessage : option string;
  resp_transactions : list Transaction;
  txnsCount : Z;
  resp_totalCbAmount : option string;
  resp_reqChkTxnCheckPoint1 : option Z;
}.

(** How the promise returned by [getTransactions] settles. *)
Inductive Settlement : Type :=
| Rejects (err_userMessage : option string)
| Resolves (response : ListResponse).

(** One call of [getTransactions(upiCircleTransactions, filter, pageSize,
    offset)], as it reaches the transport. *)
Record Request : Type := {
  upiCircleTransactions : bool;
  requestFilter : gmap string string;
  limit : Z;
  req_offset : Z;
}.

(** The values of the state variables that the callbacks of one render
    close over.  A state setter schedules the next render; it does not
    change what a callback created by the current render reads. *)
Record Render : Type := {
  r_offset : Z;
  r_filter : gmap string string;
  r_dateMode : gmap string string;
  r_lastUpdated : option Z;
  r_errorOccuredDuringLastUpdate : bool;
}.

(** The continuation of a fetch that has been issued and not yet settled,
    with the values it closes over. *)
Inductive Pending : Type :=
| AwaitForce (isCircleTxns : bool) (lastUpdated : option Z)
| AwaitMore (isCircleTxns : bool) (existingTransactions : list Transaction)
            (newOffset : Z) (lastUpdated : option Z).

(** The hook state ([useTransactionsState]): five state variables, the
    refs ([None] is a [null] ref; a [BehaviorSubject] is its current
    value), the calls that reached the transport, oldest first, and the
    fetches in flight, oldest first. *)
Record State : Type := {
  offset : Z;
  filter : gmap string string;
  dateMode : gmap string string;
  lastUpdated : option Z;
  errorOccuredDuringLastUpdate : bool;
  transactionsObservableRef : option (Maybe PaginatedTransactions);
  circleTransactionsObservableRef : option (Maybe PaginatedTransactions);
  paymentSubscriptionRef : option Render;
  requests : list Request;
  inflight : list Pending;
}.

Definition initial : State :=
  {| offset := 0; filter := ∅; dateMode := ∅; lastUpdated := None;
     errorOccuredDuringLastUpdate := false;
     transactionsObservableRef := None;
     circleTransactionsObservableRef := None;
     paymentSubscriptionRef := None;
     requests := []; inflight := [] |}.

(** The closure environment of the callbacks created by rendering [st]. *)
Definition render (st : State) : Render :=
  {| r_offset := offset st; r_filter := filter st;
     r_dateMode := dateMode st; r_lastUpdated := lastUpdated st;
     r_errorOccuredDuringLastUpdate := errorOccuredDuringLastUpdate st |}.

(** *** State setters ([useTransactionsState]) *)

Definition setOffset (f : Z → Z) (st : State) : State :=
  {| offset := f (offset st); filter := filter st; dateMode := dateMode st;
     lastUpdated := lastUpdated st;
     errorOccuredDuringLastUpdate := errorOccuredDuringLastUpdate st;
     transactionsObservableRef := transactionsObservableRef st;
     circleTransactionsObservableRef := circleTransactionsObservableRef st;
     paymentSubscriptionRef := paymentSubscriptionRef st;
     requests := requests st; inflight := inflight st |}.

Definition resetOffset : State → State := setOffset (λ _, 0).
Definition incrementOffset (pageSize : Z) : State → State :=
  setOffset (λ prev, prev + pageSize).

Definition setFilter (f : gmap string string) (st : State) : State :=
  {| offset := offset st; filter := f; dateMode := dateMode st;
     lastUpdated := lastUpdated st;
     errorOccuredDuringLastUpdate := errorOccuredDuringLastUpdate st;
     transactionsObservableRef := transactionsObservableRef st;
     circleTransactionsObservableRef := circleTransactionsObservableRef st;
     paymentSubscriptionRef := paymentSubscriptionRef st;
     requests := requests st; inflight := inflight st |}.

Definition setDateMode (d : gmap string string) (st : State) : State :=
  {| offset := offset st; filter := filter st; dateMode := d;
     lastUpdated := lastUpdated st;
     errorOccuredDuringLastUpdate := errorOccuredDuringLastUpdate st;
     transactionsObservableRef := transactionsObservableRef st;
     circleTransactionsObservableRef := circleTransactionsObservableRef st;
     paymentSubscriptionRef := paymentSubscriptionRef st;
     requests := requests st; inflight := inflight st |}.

Definition updateLastUpdated (now : Z) (st : State) : State :=
  {| offset := offset st; filter := filter st; dateMode := dateMode st;
     lastUpdated := Some now;
     errorOccuredDuringLastUpdate := errorOccuredDuringLastUpdate st;
     transactionsObservableRef := transactionsObservableRef st;
     circleTransactionsObservableRef := circleTransactionsObservableRef st;
     paymentSubscriptionRef := paymentSubscriptionRef st;
     requests := requests st; inflight := inflight st |}.

Definition setErrorState (hasError : bool) (st : State) : State :=
  {| offset := offset st; filter := filter st; dateMode := dateMode st;
     lastUpdated := lastUpdated st;
     errorOccuredDuringLastUpdate := hasError;
     transactionsObservableRef := transactionsObservableRef st;
     circleTransactionsObservableRef := circleTransactionsObservableRef st;
     paymentSubscriptionRef := paymentSubscriptionRef st;
     requests := requests st; inflight := inflight st |}.

(** *** Refs *)

Definition observableRef (isCircleTxns : bool) (st : State)
  : option (Maybe PaginatedTransactions) :=
  if isCircleTxns then circleTransactionsObservableRef st
  else transactionsObservableRef st.

(** [ref.current = v] *)
Definition setObservableRef (isCircleTxns : bool)
    (v : option (Maybe PaginatedTransactions)) (st : State) : State :=
  {| offset := offset st; filter := filter st; dateMode := dateMode st;
     lastUpdated := lastUpdated st;
     errorOccuredDuringLastUpdate := errorOccuredDuringLastUpdate st;
     transactionsObservableRef :=
       if isCircleTxns then transactionsObservableRef st else v;
     circleTransactionsObservableRef :=
       if isCircleTxns then v else circleTransactionsObservableRef st;
     paymentSubscriptionRef := paymentSubscriptionRef st;
     requests := requests st; inflight := inflight st |}.

(** [ref.current?.next(data)]: nothing happens on a [null] ref. *)
Definition next (isCircleTxns : bool) (data : Maybe PaginatedTransactions)
    (st : State) : State :=
  match observableRef isCircleTxns st with
  | None => st
  | Some _ => setObservableRef isCircleTxns (Some data) st
  end.

Definition setPaymentSubscriptionRef (s : option Render) (st : State)
  : State :=
  {| offset := offset st; filter := filter st; dateMode := dateMode st;
     lastUpdated := lastUpdated st;
     errorOccuredDuringLastUpdate := errorOccuredDuringLastUpdate st;
     transactionsObservableRef := transactionsObservableRef st;
     circleTransactionsObservableRef := circleTransactionsObservableRef st;
     paymentSubscriptionRef := s;
     requests := requests st; inflight := inflight st |}.

Definition setInflight (l : list Pending) (st : State) : State :=
  {| offset := offset st; filter := filter st; dateMode := dateMode st;
     lastUpdated := lastUpdated st;
     errorOccuredDuringLastUpdate := errorOccuredDuringLastUpdate st;
     transactionsObservableRef := transactionsObservableRef st;
     circleTransactionsObservableRef := circleTransactionsObservableRef st;
     paymentSubscriptionRef := paymentSubscriptionRef st;
     requests := requests st; inflight := l |}.

(** *** The transport call ([useTransactionAPI.ts]) *)

Definition circleFilter : gmap string string := {[ "upiCircle" := "Y" ]}.

(** [getTransactions]: the request leaves with the circle marker or a copy
    of the filter it was given; [k] is what runs when it settles. *)
Definition getTransactions (upiCircle : bool) (f : gmap string string)
    (pageSize off : Z) (k : Pending) (st : State) : State :=
  {| offset := offset st; filter := filter st; dateMode := dateMode st;
     lastUpdated := lastUpdated st;
     errorOccuredDuringLastUpdate := errorOccuredDuringLastUpdate st;
     transactionsObservableRef := transactionsObservableRef st;
     circleTransactionsObservableRef := circleTransactionsObservableRef st;
     paymentSubscriptionRef := paymentSubscriptionRef st;
     requests :=
       requests st ++
       [{| upiCircleTransactions := upiCircle;
           requestFilter := if upiCircle then circleFilter else f;
           limit := pageSize; req_offset := off |}];
     inflight := inflight st ++ [k] |}.

(** *** Pagination ([useTransactionPagination.ts]) *)

Definition pageSize : Z := 20.

Definition hasNextPage (count offset : Z) : bool := offset + pageSize <? count.

Definition paginate (response : ListResponse) (offset : Z)
    (lastUpdated : option Z) : PaginatedTransactions :=
  {| transactions := resp_transactions response;
     count := txnsCount response;
     hasNext := hasNextPage (txnsCount response) offset;
     fetchedTimestamp := lastUpdated;
     showShimmer := false;
     totalCbAmount := resp_totalCbAmount response;
     reqChkTxnCheckPoint1 := resp_reqChkTxnCheckPoint1 response |}.

(** [errorResponse.userMessage || 'An error occurred'] *)
Definition createError (userMessage : option string) : string :=
  match userMessage with
  | Some m => if bool_decide (m = "") then "An error occurred" else m
  | None => "An error occurred"
  end.

(** [{ ...response, transactions: filteredTxns }] *)
Definition with_transactions (response : ListResponse)
    (txns : list Transaction) : ListResponse :=
  {| resp_error := resp_error response;
     userMessage := userMessage response;
     resp_transactions := txns;
     txnsCount := txnsCount response;
     resp_totalCbAmount := resp_totalCbAmount response;
     resp_reqChkTxnCheckPoint1 := resp_reqChkTxnCheckPoint1 response |}.

Definition onSuccess (response : ListResponse) (isCircleTxns : bool)
    (updateObservable : Maybe PaginatedTransactions → State → State)
    (filterICDPendingTransactions : Transaction → bool)
    (offset : Z) (lastUpdated : option Z) (st : State) : State :=
  if resp_error response then
    updateObservable (Maybe_error (createError (userMessage response))) st
  else
    let filteredTxns :=
      List.filter filterICDPendingTransactions (resp_transactions response) in
    let finalResponse := with_transactions response filteredTxns in
    updateObservable (Maybe_of (paginate finalResponse offset lastUpdated)) st.

Definition onError (err_userMessage : option string)
    (updateObservable : Maybe PaginatedTransactions → State → State)
    (st : State) : State :=
  updateObservable (Maybe_error (createError err_userMessage)) st.

(** *** Refresh and load-more ([useTransactionsManager.ts]) *)

Definition shimmerData (isCircleTxns : bool) (now : Z)
  : PaginatedTransactions :=
  {| hasNext := false;
     transactions := [];
     count := if isCircleTxns then 0 else 1;
     fetchedTimestamp := Some now;
     showShimmer := true;
     totalCbAmount := Some "0";
     reqChkTxnCheckPoint1 := if isCircleTxns then None else Some 0 |}.

(** The part shared by [forceUpdate] and [forceCircleUpdate], which differ
    in the ref they publish to, in the shimmer and in the request. *)
Definition forceUpdateOf (isCircleTxns : bool) (r : Render) (now : Z)
    (st : State) : State :=
  let st := resetOffset st in
  let st := updateLastUpdated now st in
  let st := setErrorState false st in
  let st :=
    match observableRef isCircleTxns st with
    | None => setObservableRef isCircleTxns (Some Maybe_unresolved) st
    | Some _ => next isCircleTxns (Maybe_of (shimmerData isCircleTxns now)) st
    end in
  getTransactions isCircleTxns (if isCircleTxns then ∅ else r_filter r)
    pageSize 0 (AwaitForce isCircleTxns (r_lastUpdated r)) st.

Definition forceUpdate : Render → Z → State → State := forceUpdateOf false.
Definition forceCircleUpdate : Render → Z → State → State :=
  forceUpdateOf true.

Definition hasExpired (r : Render) (now : Z) : bool :=
  match r_lastUpdated r with
  | None => true
  | Some t =>
    let elapsed := now - t in
    let duration := 30 * 60 * 1000 in
    duration <=? elapsed
  end.

Definition shouldUpdate (r : Render) (now : Z) (st : State) : bool :=
  negb (bool_decide (is_Some (transactionsObservableRef st)))
  || r_errorOccuredDuringLastUpdate r || hasExpired r now.

Definition shouldUpdateCircleHistory (r : Render) (now : Z) (st : State)
  : bool :=
  negb (bool_decide (is_Some (circleTransactionsObservableRef st)))
  || r_errorOccuredDuringLastUpdate r || hasExpired r now.

Definition fetchTransactionsList (r : Render) (now : Z) (st : State) : State :=
  if shouldUpdate r now st then forceUpdate r now st else st.

Definition fetchCircleTransactionList (r : Render) (now : Z) (st : State)
  : State :=
  if shouldUpdateCircleHistory r now st then forceCircleUpdate r now st
  else st.

Definition failedToFetchMore (isCircleTxns : bool) : string :=
  if isCircleTxns then "Failed to fetch more circle transactions"
  else "Failed to fetch more transactions".

(** [fetchMore] and [fetchMoreCircleTxns] up to the [await].  Reading
    [.data.transactions] of a value that carries no [data] raises, and the
    [catch] arm publishes the failure; the request is not issued then. *)
Definition fetchMoreOf (isCircleTxns : bool) (r : Render) (st : State)
  : State :=
  if negb (r_errorOccuredDuringLastUpdate r)
     && bool_decide (is_Some (observableRef isCircleTxns st)) then
    let st := incrementOffset pageSize st in
    let newOffset := r_offset r + pageSize in
    match observableRef isCircleTxns st ≫= Maybe_data with
    | None =>
      next isCircleTxns (Maybe_error (failedToFetchMore isCircleTxns)) st
    | Some data =>
      getTransactions isCircleTxns (if isCircleTxns then ∅ else r_filter r)
        pageSize newOffset
        (AwaitMore isCircleTxns (transactions data) newOffset
                   (r_lastUpdated r)) st
    end
  else st.

Definition fetchMore : Render → State → State := fetchMoreOf false.
Definition fetchMoreCircleTxns : Render → State → State := fetchMoreOf true.

(** The code that runs when an issued fetch settles: [.then(onSuccess)
    .catch(onError)] for a refresh, the rest of the [try] block and its
    [catch] arm for a load-more. *)
Definition settle (k : Pending) (s : Settlement) (st : State) : State :=
  match k, s with
  | AwaitForce c lu, Resolves res =>
    onSuccess res c (next c) keep 0 lu st
  | AwaitForce c lu, Rejects err => onError err (next c) st
  | AwaitMore c existingTransactions newOffset lu, Resolves response =>
    if resp_error response then
      next c (Maybe_error (default "" (userMessage response))) st
    else
      let filteredTxns := List.filter keep (resp_transactions response) in
      next c
        (Maybe_of
           {| hasNext := hasNextPage (txnsCount response) newOffset;
              transactions := existingTransactions ++ filteredTxns;
              count := txnsCount response;
              fetchedTimestamp := lu;
              showShimmer := false;
              totalCbAmount :=
                if c then None else resp_totalCbAmount response;
              reqChkTxnCheckPoint1 := None |}) st
  | AwaitMore c _ _ _, Rejects _ =>
    next c (Maybe_error (failedToFetchMore c)) st
  end.

(** The [i]-th fetch in flight settles with [s]. *)
Definition deliver (i : nat) (s : Settlement) (st : State) : State :=
  match inflight st !! i with
  | None => st
  | Some k => settle k s (setInflight (delete i (inflight st)) st)
  end.

(** *** Filters ([useTransactionFilters]) *)

Section Filters.
(** The [forceUpdate] callback the hook is given. *)
Variable forceUpdate' : State → State.

Definition applyFilter (filterBy : gmap string string) (st : State)
  : State := forceUpdate' (setFilter filterBy st).
Definition applyDateMode (dateModeBy : gmap string string) (st : State)
  : State := forceUpdate' (setDateMode dateModeBy st).
Definition clearFilter (st : State) : State :=
  forceUpdate' (setFilter ∅ st).
Definition clearDateMode (st : State) : State :=
  forceUpdate' (setDateMode ∅ st).
Definition clearFilterWithoutUpdate (st : State) : State := setFilter ∅ st.
Definition clearFilterWithUpdate (st : State) : State :=
  forceUpdate' (setDateMode ∅ (setFilter ∅ st)).
Definition filterforupiId (upiId : string) (st : State) : State :=
  forceUpdate' (setFilter {[ "vpa" := upiId ]} st).
Definition upiLitefilter (upilite : string) (st : State) : State :=
  forceUpdate' (setFilter {[ "upiLite" := upilite ]} st).
End Filters.

(** The seven filter operations as [useTransactionsManager] exposes them:
    [useTransactionFilters(filter, dateMode, setFilter, setDateMode,
    forceUpdate)] receives the [forceUpdate] of the same render. *)
Inductive FilterChange : Type :=
| ApplyFilter (filterBy : gmap string string)
| ApplyDateMode (dateModeBy : gmap string string)
| ClearFilter
| ClearDateMode
| ClearFilterWithUpdate
| FilterForUpiId (upiId : string)
| UpiLiteFilter (upilite : string).

Definition changeFilter (c : FilterChange) (now : Z) (st : State) : State :=
  let forceUpdate' := forceUpdate (render st) now in
  match c with
  | ApplyFilter f => applyFilter forceUpdate' f st
  | ApplyDateMode d => applyDateMode forceUpdate' d st
  | ClearFilter => clearFilter forceUpdate' st
  | ClearDateMode => clearDateMode forceUpdate' st
  | ClearFilterWithUpdate => clearFilterWithUpdate forceUpdate' st
  | FilterForUpiId u => filterforupiId forceUpdate' u st
  | UpiLiteFilter u => upiLitefilter forceUpdate' u st
  end.

(** The filter and date mode the state variables hold after the change. *)
Definition newFilter (c : FilterChange) (st : State) : gmap string string :=
  match c with
  | ApplyFilter f => f
  | ClearFilter | ClearFilterWithUpdate => ∅
  | FilterForUpiId u => {[ "vpa" := u ]}
  | UpiLiteFilter u => {[ "upiLite" := u ]}
  | ApplyDateMode _ | ClearDateMode => filter st
  end.

(** *** Payment events ([useTransactionObservables]) *)

Module PaymentAction.
(** Modelled from the spec: the enumeration [PaymentAction]
    ([../utils/PaymentActions]) is not among the sources.  Its members are
    the six event values the subscription lists (the specification's
    generic sent, approved, declined and failed, and the two direct-pay
    variants); any other value carried by the merged stream is [OTHER]. *)
Inductive t : Type :=
| SENT
| APPROVED
| DECLINED
| FAILED
| DIRECT_PAY_FAILED
| DIRECT_PAY_SENT
| OTHER (tag : string).

#[global] Instance eq_dec : EqDecision t.
Proof. solve_decision. Defined.
End PaymentAction.

(** The predicate of [rxJsFilter]. *)
Definition recognized (action : PaymentAction.t) : bool :=
  bool_decide
    (action ∈ [PaymentAction.SENT; PaymentAction.APPROVED;
               PaymentAction.DECLINED; PaymentAction.FAILED;
               PaymentAction.DIRECT_PAY_FAILED;
               PaymentAction.DIRECT_PAY_SENT]).

(** [subscribePaymentActions]: an earlier subscription is cancelled and the
    [forceUpdate] of the current render becomes the subscriber. *)
Definition subscribePaymentActions (r : Render) (st : State) : State :=
  setPaymentSubscriptionRef (Some r) st.

(** The merged stream emits [action] at instant [now]. *)
Definition emit (action : PaymentAction.t) (now : Z) (st : State) : State :=
  match paymentSubscriptionRef st with
  | None => st
  | Some r => if recognized action then forceUpdate r now st else st
  end.

(** *** Runs in which a call's own fetch settles before the next call *)

Definition refreshedOf (isCircleTxns : bool) (now : Z) (s : Settlement)
    (st : State) : State :=
  deliver (length (inflight st)) s
    (forceUpdateOf isCircleTxns (render st) now st).

Definition loadedMoreOf (isCircleTxns : bool) (s : Settlement) (st : State)
  : State :=
  deliver (length (inflight st)) s (fetchMoreOf isCircleTxns (render st) st).

Definition loadedMoreAll (isCircleTxns : bool) (pages : list ListResponse)
    (st : State) : State :=
  foldl (λ st page, loadedMoreOf isCircleTxns (Resolves page) st) st pages.

(** The page a list holds, when it holds one. *)
Definition cached (isCircleTxns : bool) (st : State)
  : option PaginatedTransactions :=
  observableRef isCircleTxns st ≫= Maybe_data.

(** The request a list sends for the page at [off] under filter [f]. *)
Definition pageRequest (isCircleTxns : bool) (f : gmap string string)
    (off : Z) : Request :=
  {| upiCircleTransactions := isCircleTxns;
     requestFilter := if isCircleTxns then circleFilter else f;
     limit := pageSize; req_offset := off |}.

(** The items of a page that reach the cache. *)
Definition kept (page : ListResponse) : list Transaction :=
  List.filter keep (resp_transactions page).

End TransactionsManager.

(** ** Sample data for the worked examples *)

Module Samples.
Import TransactionsManager.

Definition payer (r : option string) : PayerInfo :=
  {| role := r; name := "Asha" |}.

(** A transaction created at instant 0 with no role and no counters. *)
Definition txn (i : string) (s : TxnStatusType) : Transaction :=
  {| id := i; createdAt := 0; status := s; selfInitiated := Some true;
     purpose := None; payerInfo := Some (payer None);
     txnInfo := Some {| isICDRequested := None;
                        isReqChkTxnExhausted := None |};
     reqChkTxnParams := None |}.

(** A cash-deposit transaction that is still pending: never listed. *)
Definition icdPending : Transaction :=
  {| id := "icd"; createdAt := 0; status := PENDING;
     selfInitiated := Some true; purpose := Some SEND_TO_SELF;
     payerInfo := Some (payer None);
     txnInfo := Some {| isICDRequested := Some false;
                        isReqChkTxnExhausted := None |};
     reqChkTxnParams := None |}.

Definition page (txns : list Transaction) (total : Z) : ListResponse :=
  {| resp_error := false; userMessage := None; resp_transactions := txns;
     txnsCount := total; resp_totalCbAmount := None;
     resp_reqChkTxnCheckPoint1 := Some 120 |}.

Definition page0 : ListResponse :=
  page [txn "t1" SUCCESS; icdPending; txn "t2" PENDING] 45.
Definition page1 : ListResponse := page [txn "t3" SUCCESS] 45.
(** The reported total has dropped below the number of cached items. *)
Definition page2 : ListResponse := page [txn "t4" DECLINED] 2.

(** The main list loaded at instant 0. *)
Definition mainLoaded : State :=
  refreshedOf false 0 (Resolves page0) initial.

(** Then the circle list loaded at 1000 s. *)
Definition circleLoaded : State :=
  refreshedOf true 1000000 (Resolves page1) mainLoaded.

(** The main list while a refresh issued at 5 s is in flight. *)
Definition mainLoading : State :=
  forceUpdate (render mainLoaded) 5000 mainLoaded.

(** The main list with the payment events subscribed. *)
Definition mainSubscribed : State :=
  subscribePaymentActions (render mainLoaded) mainLoaded.

(** The polled transaction: created at instant 0, pending, no role. *)
Definition polled : Transaction := txn "tx1" PENDING.

Definition params (cur max cp2 : JsNum) : ReqChkTxnParams :=
  {| currentCount := cur; maxCount := max; checkPoint2 := cp2 |}.

(** What the transport answers for ["tx1"]. *)
Definition answer (s : TxnStatusType) (r : option string)
    (exhausted : option bool) (p : option ReqChkTxnParams) : Transaction :=
  {| id := "tx1"; createdAt := 0; status := s; selfInitiated := Some true;
     purpose := None; payerInfo := Some (payer r);
     txnInfo := Some {| isICDRequested := None;
                        isReqChkTxnExhausted := exhausted |};
     reqChkTxnParams := p |}.

(** A stored record for ["tx1"] with a second checkpoint of two hours. *)
Definition stored (cur max : Z) (exhausted : bool)
  : StatusRefresh.CheckpointRecord :=
  {| StatusRefresh.transactionId := "tx1";
     StatusRefresh.rec_reqChkTxnParams :=
       Some (params (JNum cur) (JNum max) (JNum 7200));
     StatusRefresh.rec_isReqChkTxnExhausted := Some exhausted;
     StatusRefresh.refreshedCreatedAt := 0 |}.

End Samples.

(** ** Further parts of the hooks *)

(** *** The clock display ([formatTime12Hr], [useTransactionStatusRefresh.ts]) *)

Module ClockFormat.

(** [hours] and [minutes] are what [date.getHours()] and
    [date.getMinutes()] return; a number inside a template literal is
    written in decimal. *)
Definition formatTime12Hr (hours minutes : Z) : string :=
  let ampm := if 12 <=? hours then "PM" else "AM" in
  let formattedHours :=
    if hours `mod` 12 =? 0 then 12 else hours `mod` 12 in
  let formattedMinutes :=
    if minutes <? 10 then "0" +:+ pretty minutes else pretty minutes in
  pretty formattedHours +:+ ":" +:+ formattedMinutes +:+ " " +:+ ampm.

(** The hour and minute pairs of one day. *)
Definition day : list (Z * Z) :=
  h ← seqZ 0 24; m ← seqZ 0 60; [(h, m)].

End ClockFormat.

(** *** The cash-deposit predicates ([useTransactionTypes.ts]) *)

Module TransactionTypes.

(** [purpose === SEND_TO_SELF || purpose === SEND_TO_OTHER] *)
Definition isSendPurpose (transaction : Transaction) : bool :=
  bool_decide (purpose transaction = Some SEND_TO_SELF)
  || bool_decide (purpose transaction = Some SEND_TO_OTHER).

Definition isICDRequestGeneratedTransaction (transaction : Transaction)
  : bool :=
  bool_decide ((txnInfo transaction ≫= isICDRequested) = Some true)
  && negb (bool_decide (status transaction = PENDING))
  && isSendPurpose transaction.

Definition isICDCashDepositTransaction (transaction : Transaction) : bool :=
  negb (bool_decide (status transaction = PENDING))
  && bool_decide (selfInitiated transaction = Some true)
  && bool_decide ((txnInfo transaction ≫= isICDRequested) = Some false)
  && isSendPurpose transaction.

Definition isICDCashReceivedTransaction (transaction : Transaction) : bool :=
  bool_decide (selfInitiated transaction = Some false)
  && negb (bool_decide (status transaction = PENDING))
  && isSendPurpose transaction.

End TransactionTypes.

(** *** Concerns ([useTransactionComplaints.ts]) *)

Module Complaints.

(** A reply of the [query] endpoint, or the value a failed call is
    rejected with: both are read through [error] and [userMessage]. *)
Record Reply : Type := {
  reply_error : bool;
  reply_userMessage : option string;
}.

(** How [RestClient.post] or [RestClient.get] settles. *)
Inductive Transport : Type :=
| TransportRejects (err : Reply)
| TransportResolves (response : Reply).

(** A settled promise: fulfilled with a reply, or rejected with
    [new Error(message)]. *)
Inductive Settled : Type :=
| Fulfilled (value : Reply)
| RejectedWith (message : string).

(** [validateResponse] is imported from [../utils/transactionUtils]; it is
    taken as the combined hook defines it:
    [response.error ? Promise.reject(response) : response].  The result is
    the reply that goes on, or the value the [catch] arm receives. *)
Definition validateResponse (tr : Transport) : Reply + Reply :=
  match tr with
  | TransportRejects err => inr err
  | TransportResolves response =>
    if reply_error response then inr response else inl response
  end.

(** [if (err.userMessage)]: a non-empty string. *)
Definition spoken (err : Reply) : option string :=
  match reply_userMessage err with
  | Some m => if bool_decide (m = "") then None else Some m
  | None => None
  end.

Definition raiseConcern (tr : Transport) : Settled :=
  match validateResponse tr with
  | inl response => Fulfilled response
  | inr err =>
    match spoken err with
    | Some m => RejectedWith m
    | None => RejectedWith "Network error occurred"
    end
  end.

Definition getQueryApi (tr : Transport) : Settled :=
  match validateResponse tr with
  | inl response => Fulfilled response
  | inr err =>
    match spoken err with
    | Some _ => Fulfilled err
    | None => RejectedWith "Network error occurred"
    end
  end.

End Complaints.

(** *** Sessions: the exposed operations, called in any order *)

Module Session.
Import TransactionsManager.

(** [initializeTransactionsObservable] and
    [initializeCircleTransactionsObservable]. *)
Definition initializeObservableOf (isCircleTxns : bool) (st : State) : State :=
  match observableRef isCircleTxns st with
  | None => setObservableRef isCircleTxns (Some Maybe_unresolved) st
  | Some _ => st
  end.

Definition fetchListOf (isCircleTxns : bool) (r : Render) (now : Z)
    (st : State) : State :=
  if isCircleTxns then fetchCircleTransactionList r now st
  else fetchTransactionsList r now st.

Definition shouldUpdateOf (isCircleTxns : bool) (r : Render) (now : Z)
    (st : State) : bool :=
  if isCircleTxns then shouldUpdateCircleHistory r now st
  else shouldUpdate r now st.

(** [isFilterApplied], [isDateModeApplied], [getAppliedFilter] and
    [getAppliedDateMode] ([useTransactionFilters]) read the values of the
    render. *)
Definition isFilterApplied (r : Render) : bool :=
  negb (bool_decide (r_filter r = ∅)).
Definition isDateModeApplied (r : Render) : bool :=
  negb (bool_decide (r_dateMode r = ∅)).
Definition getAppliedFilter (r : Render) : gmap string string := r_filter r.
Definition getAppliedDateMode (r : Render) : gmap string string :=
  r_dateMode r.

(** The date mode the state variable holds after a filter change. *)
Definition newDateMode (c : FilterChange) (st : State) : gmap string string :=
  match c with
  | ApplyDateMode d => d
  | ClearDateMode | ClearFilterWithUpdate => ∅
  | _ => dateMode st
  end.

(** A settlement that is not a page: the promise rejects, or the reply
    carries [error]. *)
Definition failure (s : Settlement) : bool :=
  match s with
  | Rejects _ => true
  | Resolves response => resp_error response
  end.

(** What a load-more publishes when its request settles with [s]. *)
Definition moreResult (c : bool) (existingTransactions : list Transaction)
    (newOffset : Z) (lastUpdated : option Z) (s : Settlement)
  : Maybe PaginatedTransactions :=
  match s with
  | Rejects _ => Maybe_error (failedToFetchMore c)
  | Resolves response =>
    if resp_error response then
      Maybe_error (default "" (userMessage response))
    else
      Maybe_of
        {| hasNext := hasNextPage (txnsCount response) newOffset;
           transactions := existingTransactions ++ kept response;
           count := txnsCount response;
           fetchedTimestamp := lastUpdated;
           showShimmer := false;
           totalCbAmount :=
             if c then None else resp_totalCbAmount response;
           reqChkTxnCheckPoint1 := None |}
  end.

(** One call from the user interface or one event from outside.  A
    callback is the one of the latest render, except [StaleRefetch]: the
    [forceUpdate] or [forceCircleUpdate] of any earlier render, as the
    status poll and the sync hold it across their [await].  A fetch in
    flight settles at any later point, in any order. *)
Inductive Op : Type :=
| Refetch (isCircleTxns : bool) (now : Z)
| StaleRefetch (isCircleTxns : bool) (r : Render) (now : Z)
| FetchList (isCircleTxns : bool) (now : Z)
| FetchMore (isCircleTxns : bool)
| Settle (i : nat) (s : Settlement)
| Change (c : FilterChange) (now : Z)
| ClearFilterWithoutUpdate
| Initialize (isCircleTxns : bool)
| Subscribe
| Event (action : PaymentAction.t) (now : Z).

Definition step (st : State) (op : Op) : State :=
  match op with
  | Refetch c now => forceUpdateOf c (render st) now st
  | StaleRefetch c r now => forceUpdateOf c r now st
  | FetchList c now => fetchListOf c (render st) now st
  | FetchMore c => fetchMoreOf c (render st) st
  | Settle i s => deliver i s st
  | Change c now => changeFilter c now st
  | ClearFilterWithoutUpdate => clearFilterWithoutUpdate st
  | Initialize c => initializeObservableOf c st
  | Subscribe => subscribePaymentActions (render st) st
  | Event action now => emit action now st
  end.

Definition run (ops : list Op) : State := foldl step initial ops.

(** A request as every call site builds it. *)
Definition request_ok (rq : Request) : Prop :=
  limit rq = pageSize
  ∧ (∃ k : nat, req_offset rq = pageSize * Z.of_nat k)
  ∧ (upiCircleTransactions rq = true → requestFilter rq = circleFilter).

(** No item of a published page is a pending cash deposit. *)
Definition page_ok (m : option (Maybe PaginatedTransactions)) : Prop :=
  ∀ d, m = Some (Maybe_of d) →
       Forall (λ t, isICDCashDepositPendingTransaction t = false)
              (transactions d).

Definition pending_ok (k : Pending) : Prop :=
  match k with
  | AwaitForce _ _ => True
  | AwaitMore _ existingTransactions newOffset _ =>
    Forall (λ t, isICDCashDepositPendingTransaction t = false)
           existingTransactions
    ∧ ∃ k : nat, newOffset = pageSize * Z.of_nat k
  end.

Record Inv (st : State) : Prop := {
  inv_flag : errorOccuredDuringLastUpdate st = false;
  inv_offset : ∃ k : nat, offset st = pageSize * Z.of_nat k;
  inv_requests : Forall request_ok (requests st);
  inv_main : page_ok (transactionsObservableRef st);
  inv_circle : page_ok (circleTransactionsObservableRef st);
  inv_inflight : Forall pending_ok (inflight st);
}.

End Session.

(** Case analysis on every conditional left in the goal. *)
Ltac case_branches :=
  repeat match goal with
         | |- context [if ?b then _ else _] => destruct b
         end.

(** * Properties of the list cache *)

Module TransactionsManagerFacts.
Import TransactionsManager Samples.

Lemma deliver_issued upiCircle f size off k s st :
  deliver (length (inflight st)) s (getTransactions upiCircle f size off k st)
  = settle k s
      (setInflight (inflight st)
         (getTransactions upiCircle f size off k st)).
Proof.
  unfold deliver. cbn [inflight getTransactions].
  rewrite lookup_app_r by lia. rewrite Nat.sub_diag. cbn.
  f_equal. f_equal.
  generalize (inflight st). intros l.
  induction l as [|x l IH]; [done|]. simpl. f_equal. exact IH.
Qed.

Lemma cached_Some c st d :
  cached c st = Some d ↔ observableRef c st = Some (Maybe_of d).
Proof.
  unfold cached. destruct (observableRef c st) as [[| |]|]; cbn; naive_solver.
Qed.

Lemma observableRef_next c m st :
  is_Some (observableRef c st) → observableRef c (next c m st) = Some m.
Proof.
  intros [v Hv]. unfold next. rewrite Hv. by destruct c.
Qed.

(** One load-more on a list that holds a page, settled with a page. *)
Lemma loadedMoreOf_resolved c page st d :
  errorOccuredDuringLastUpdate st = false →
  cached c st = Some d →
  resp_error page = false →
  let st' := loadedMoreOf c (Resolves page) st in
  (∃ d', cached c st' = Some d'
         ∧ transactions d' = transactions d ++ kept page
         ∧ hasNext d' = hasNextPage (txnsCount page) (offset st + pageSize)
         ∧ count d' = txnsCount page)
  ∧ offset st' = offset st + pageSize
  ∧ errorOccuredDuringLastUpdate st' = false
  ∧ filter st' = filter st
  ∧ inflight st' = inflight st
  ∧ requests st' =
      requests st ++ [pageRequest c (filter st) (offset st + pageSize)].
Proof.
  intros Herr Hc Hok. apply cached_Some in Hc.
  unfold loadedMoreOf, fetchMoreOf. cbn [render r_errorOccuredDuringLastUpdate
    r_offset r_filter r_lastUpdated].
  rewrite Herr, Hc. cbn [negb andb].
  rewrite bool_decide_eq_true_2 by eauto.
  replace (observableRef c (incrementOffset pageSize st))
    with (Some (Maybe_of d)) by (rewrite <- Hc; by destruct c).
  cbn [mbind option_bind Maybe_data].
  pose proof (deliver_issued c (if c then ∅ else filter st) pageSize
    (offset st + pageSize)
    (AwaitMore c (transactions d) (offset st + pageSize) (lastUpdated st))
    (Resolves page) (incrementOffset pageSize st)) as Hd.
  cbn [inflight incrementOffset setOffset] in Hd. rewrite Hd. clear Hd.
  cbn [settle]. rewrite Hok.
  set (st1 := setInflight _ _).
  assert (Href : observableRef c st1 = Some (Maybe_of d))
    by (rewrite <- Hc; by destruct c).
  split.
  { eexists. split.
    - apply cached_Some. apply observableRef_next. rewrite Href. eauto.
    - done. }
  unfold next. rewrite Href. destruct c; cbn; done.
Qed.

(** A forced refresh settled with a page, from any state. *)
Lemma refreshedOf_resolved c now page st :
  resp_error page = false →
  let st' := refreshedOf c now (Resolves page) st in
  cached c st' =
    Some (paginate (with_transactions page (kept page)) 0 (lastUpdated st))
  ∧ offset st' = 0
  ∧ errorOccuredDuringLastUpdate st' = false
  ∧ filter st' = filter st
  ∧ inflight st' = inflight st
  ∧ requests st' = requests st ++ [pageRequest c (filter st) 0].
Proof.
  intros Hok. unfold refreshedOf, forceUpdateOf.
  cbn [render r_filter r_lastUpdated].
  set (st0 := setErrorState false _).
  set (st1 := match observableRef c st0 with
              | Some _ => _ | None => _ end).
  assert (Href : is_Some (observableRef c st1)).
  { subst st1. destruct (observableRef c st0) as [v|] eqn:E.
    - rewrite observableRef_next; eauto.
    - destruct c; cbn; eauto. }
  assert (Hsame : offset st1 = 0 ∧ errorOccuredDuringLastUpdate st1 = false
                  ∧ filter st1 = filter st ∧ inflight st1 = inflight st
                  ∧ requests st1 = requests st).
  { subst st1. unfold next.
    destruct (observableRef c st0); destruct c; cbn; done. }
  destruct Hsame as (Ho & He & Hf & Hi & Hr).
  rewrite <- Hi, deliver_issued. cbn [settle]. unfold onSuccess.
  rewrite Hok. fold (kept page).
  set (st2 := setInflight _ _).
  assert (Href2 : is_Some (observableRef c st2))
    by (destruct Href as [v Hv]; exists v; rewrite <- Hv; by destruct c).
  split.
  { apply cached_Some. by apply observableRef_next. }
  destruct Href2 as [v Hv]. unfold next. rewrite Hv.
  subst st2. destruct c; cbn; rewrite ?Ho, ?He, ?Hf, ?Hi, ?Hr; done.
Qed.

(** Load-more calls one after the other on a list that holds a page. *)
Lemma loadedMoreAll_resolved c pages st d :
  errorOccuredDuringLastUpdate st = false →
  cached c st = Some d →
  Forall (λ page, resp_error page = false) pages →
  let st' := loadedMoreAll c pages st in
  (∃ d', cached c st' = Some d'
         ∧ transactions d' = transactions d ++ concat (kept <$> pages)
         ∧ ∀ page, last pages = Some page →
             hasNext d' =
               hasNextPage (txnsCount page)
                 (offset st + pageSize * Z.of_nat (length pages)))
  ∧ offset st' = offset st + pageSize * Z.of_nat (length pages)
  ∧ errorOccuredDuringLastUpdate st' = false
  ∧ filter st' = filter st
  ∧ inflight st' = inflight st
  ∧ requests st' =
      requests st ++
      imap (λ i _, pageRequest c (filter st)
                     (offset st + pageSize * (Z.of_nat i + 1))) pages.
Proof.
  intros Herr Hc. induction pages as [|page pages IH] using rev_ind.
  - intros _. cbn. split.
    + exists d. rewrite app_nil_r. naive_solver.
    + rewrite app_nil_r. repeat split; try done; lia.
  - intros Hall. apply Forall_app in Hall as [Hall Hpage].
    rewrite Forall_singleton in Hpage.
    specialize (IH Hall). cbv zeta in IH |- *.
    unfold loadedMoreAll in *. rewrite foldl_app. cbn [foldl].
    set (st1 := foldl _ st pages) in *.
    destruct IH as ((d1 & Hc1 & Ht1 & _) & Ho1 & He1 & Hf1 & Hi1 & Hr1).
    destruct (loadedMoreOf_resolved c page st1 d1 He1 Hc1 Hpage)
      as ((d2 & Hc2 & Ht2 & Hn2 & _) & Ho2 & He2 & Hf2 & Hi2 & Hr2).
    rewrite length_app, Nat2Z.inj_add. cbn [length].
    split.
    + exists d2. split; [done|]. split.
      * rewrite Ht2, Ht1, fmap_app, concat_app. cbn.
        by rewrite app_nil_r, app_assoc.
      * intros page'. rewrite last_snoc. intros [= <-].
        rewrite Hn2, Ho1. f_equal. lia.
    + rewrite Hr2, Hr1, Ho2, He2, Hf2, Hi2, Hi1, !Hf1, !Ho1.
      repeat split; [lia|].
      rewrite imap_app, <- app_assoc. cbn. do 3 f_equal.
      rewrite Nat.add_0_r. f_equal. lia.
Qed.

Lemma last_imap_snoc {A B} (f : nat → A → B) (l : list A) (x : A) :
  last (imap f (l ++ [x])) = Some (f (length l) x).
Proof.
  rewrite imap_app. cbn. rewrite last_snoc. by rewrite Nat.add_0_r.
Qed.

Lemma snoc_of_cons {A} (x : A) (l : list A) :
  ∃ l' y, x :: l = l' ++ [y] ∧ length l' = length l ∧ last (x :: l) = Some y.
Proof.
  destruct (@exists_last _ (x :: l)) as (l' & y & Heq); [done|].
  exists l', y. split; [done|]. split.
  - apply (f_equal length) in Heq. rewrite length_app in Heq. cbn in Heq. lia.
  - rewrite Heq. apply last_snoc.
Qed.

(** C1. A forced refresh followed by any number of load-more calls, each
    settled with a page before the next call: the list holds the kept
    items of the pages in fetch order, whatever the reported totals are,
    so what was cached after any number of the calls is a prefix of what
    is cached at the end; the requests left at offsets 0, 20, 40, ... under
    the one filter; and [hasNext] is [false] exactly when the offset of
    the last request plus the page size reaches the last reported total. *)
Theorem C1_load_more_appends_pages
    (c : bool) (now : Z) (st0 : TransactionsManager.State)
    (p0 : ListResponse) (pages : list ListResponse) :
  resp_error p0 = false →
  Forall (λ page, resp_error page = false) pages →
  let run := λ ps, loadedMoreAll c ps (refreshedOf c now (Resolves p0) st0) in
  ∃ d rq,
    cached c (run pages) = Some d
    ∧ transactions d = concat (kept <$> p0 :: pages)
    ∧ (∀ k, ∃ dk, cached c (run (take k pages)) = Some dk
                  ∧ transactions dk `prefix_of` transactions d)
    ∧ requests (run pages) =
        requests st0 ++
        imap (λ i _, pageRequest c (filter st0) (pageSize * Z.of_nat i))
             (p0 :: pages)
    ∧ last (requests (run pages)) = Some rq
    ∧ req_offset rq = pageSize * Z.of_nat (length pages)
    ∧ ∀ page, last (p0 :: pages) = Some page →
        (hasNext d = false ↔ (req_offset rq + pageSize >= txnsCount page)%Z).
Proof.
  intros Hp0 Hpages run.
  destruct (refreshedOf_resolved c now p0 st0 Hp0)
    as (Hc0 & Ho0 & He0 & Hf0 & Hi0 & Hr0).
  set (st1 := refreshedOf c now (Resolves p0) st0) in *.
  set (d0 := paginate _ _ _) in Hc0.
  subst run. cbv beta.
  assert (Hrun : ∀ ps, Forall (λ page, resp_error page = false) ps →
            (∃ d', cached c (loadedMoreAll c ps st1) = Some d'
               ∧ transactions d' = kept p0 ++ concat (kept <$> ps)
               ∧ ∀ page, last ps = Some page →
                   hasNext d' =
                     hasNextPage (txnsCount page)
                       (pageSize * Z.of_nat (length ps)))
            ∧ requests (loadedMoreAll c ps st1) =
                (requests st0 ++ [pageRequest c (filter st0) 0]) ++
                imap (λ i _, pageRequest c (filter st0)
                               (pageSize * (Z.of_nat i + 1))) ps).
  { intros ps Hps.
    destruct (loadedMoreAll_resolved c ps st1 d0 He0 Hc0 Hps)
      as ((d' & Hc' & Ht' & Hn') & _ & _ & _ & _ & Hr').
    rewrite Ho0, Hf0, Hr0 in *. split.
    - exists d'. split; [done|]. split; [done|].
      intros page Hlast. rewrite (Hn' page Hlast). f_equal.
    - by rewrite Hr'. }
  destruct (Hrun pages Hpages) as ((d & Hc & Ht & Hn) & Hr).
  exists d, (pageRequest c (filter st0) (pageSize * Z.of_nat (length pages))).
  split; [done|]. split; [by rewrite Ht|]. split.
  { intros k.
    destruct (Hrun (take k pages)) as ((dk & Hck & Htk & _) & _);
      [by apply Forall_take|].
    exists dk. split; [done|].
    exists (concat (kept <$> drop k pages)).
    rewrite Ht, Htk, <- app_assoc, <- concat_app, <- fmap_app.
    by rewrite take_drop. }
  assert (Hreq : requests (loadedMoreAll c pages st1) =
            requests st0 ++
            imap (λ i _, pageRequest c (filter st0) (pageSize * Z.of_nat i))
                 (p0 :: pages)).
  { rewrite Hr, <- app_assoc. f_equal. cbn. f_equal.
    apply imap_ext. intros i x _. cbn. f_equal. lia. }
  split; [done|]. split.
  { rewrite Hreq.
    destruct (snoc_of_cons p0 pages) as (l' & y & Heq & Hlen & _).
    rewrite Heq, imap_app, app_assoc. cbn. rewrite last_snoc.
    by rewrite Nat.add_0_r, Hlen. }
  split; [done|].
  intros page Hlast. cbn [req_offset pageRequest].
  assert (Hflag : hasNext d =
            hasNextPage (txnsCount page)
              (pageSize * Z.of_nat (length pages))).
  { destruct pages as [|p1 ps'].
    - cbn in Hlast. injection Hlast as <-.
      change (cached c st1 = Some d) in Hc.
      rewrite Hc0 in Hc. injection Hc as <-. done.
    - apply Hn. by rewrite last_cons_cons in Hlast. }
  rewrite Hflag. unfold hasNextPage. rewrite Z.ltb_ge. lia.
Qed.

(** The two refresh predicates read one [lastUpdated] and one error flag. *)
Lemma hasExpired_spec r now :
  hasExpired r now = true ↔
  r_lastUpdated r = None
  ∨ ∃ t, r_lastUpdated r = Some t ∧ (now - t >= 1800 * 1000)%Z.
Proof.
  unfold hasExpired. destruct (r_lastUpdated r) as [t|].
  - rewrite Z.leb_le. split.
    + intros H. right. exists t. split; [done|lia].
    + intros [[=] | (t' & [= <-] & H)]. lia.
  - naive_solver.
Qed.

Lemma lastUpdated_forceUpdateOf c r now st :
  lastUpdated (forceUpdateOf c r now st) = Some now.
Proof.
  unfold forceUpdateOf, next.
  destruct (observableRef c _); destruct c; reflexivity.
Qed.

(** A refresh whose request is rejected publishes the failure and leaves
    the error flag clear: [onError] of the pagination hook does not call
    [setErrorState], and nothing else sets the flag. *)
Lemma rejected_refresh_leaves_flag_clear c now err st :
  let st' := refreshedOf c now (Rejects err) st in
  errorOccuredDuringLastUpdate st' = false
  ∧ observableRef c st' = Some (Maybe_error (createError err)).
Proof.
  unfold refreshedOf, forceUpdateOf.
  set (st0 := setErrorState false _).
  set (st1 := match observableRef c st0 with
              | Some _ => _ | None => _ end).
  assert (Href : is_Some (observableRef c st1)).
  { subst st1. destruct (observableRef c st0) as [v|] eqn:E.
    - rewrite observableRef_next; eauto.
    - destruct c; cbn; eauto. }
  assert (Hsame : errorOccuredDuringLastUpdate st1 = false
                  ∧ inflight st1 = inflight st).
  { subst st1. unfold next.
    destruct (observableRef c st0); destruct c; cbn; done. }
  destruct Hsame as (He & Hi).
  rewrite <- Hi, deliver_issued. cbn [settle]. unfold onError.
  set (st2 := setInflight _ _).
  assert (Href2 : is_Some (observableRef c st2))
    by (destruct Href as [v Hv]; exists v; rewrite <- Hv; by destruct c).
  split; [|by apply observableRef_next].
  destruct Href2 as [v Hv]. unfold next. rewrite Hv.
  subst st2. destruct c; cbn; rewrite ?He; done.
Qed.

(** C2 (amended). [shouldUpdate] and [shouldUpdateCircleHistory] are true
    exactly when the list's observable has not been created, the error flag
    is set, no refresh has been recorded, or the one recorded refresh
    instant is at least 1800 seconds old; a forced refresh of either list
    sets that one instant. *)
Theorem C2_refresh_due_on_shared_clock
    (r : Render) (now : Z) (st : TransactionsManager.State) :
  (shouldUpdate r now st = true ↔
     transactionsObservableRef st = None
     ∨ r_errorOccuredDuringLastUpdate r = true
     ∨ r_lastUpdated r = None
     ∨ ∃ t, r_lastUpdated r = Some t ∧ (now - t >= 1800 * 1000)%Z)
  ∧ (shouldUpdateCircleHistory r now st = true ↔
       circleTransactionsObservableRef st = None
       ∨ r_errorOccuredDuringLastUpdate r = true
       ∨ r_lastUpdated r = None
       ∨ ∃ t, r_lastUpdated r = Some t ∧ (now - t >= 1800 * 1000)%Z)
  ∧ (lastUpdated (forceUpdate r now st) = Some now
     ∧ lastUpdated (forceCircleUpdate r now st) = Some now).
Proof.
  split; [|split].
  - unfold shouldUpdate. rewrite !orb_true_iff, hasExpired_spec.
    rewrite negb_true_iff, bool_decide_eq_false, <- eq_None_not_Some.
    tauto.
  - unfold shouldUpdateCircleHistory.
    rewrite !orb_true_iff, hasExpired_spec.
    rewrite negb_true_iff, bool_decide_eq_false, <- eq_None_not_Some.
    tauto.
  - split; apply lastUpdated_forceUpdateOf.
Qed.

(** The two ages of the example, on a list whose observable exists and
    whose error flag is clear. *)
Lemma shouldUpdate_ttl_examples r now st t :
  is_Some (transactionsObservableRef st) →
  r_errorOccuredDuringLastUpdate r = false →
  r_lastUpdated r = Some t →
  (now - t = 1801 * 1000 → shouldUpdate r now st = true)
  ∧ (now - t = 1799 * 1000 → shouldUpdate r now st = false).
Proof.
  intros Hs He Ht. unfold shouldUpdate, hasExpired. rewrite He, Ht.
  rewrite bool_decide_eq_true_2 by done. cbn.
  split; intros ->; reflexivity.
Qed.

(** C7 (amended). Load-more leaves the state as it is exactly when the
    error flag is set or the list's observable has not been created.  On a
    list that holds a page, the shimmer page included, it adds the page
    size to the offset and issues the request for the page at the new
    offset; the published value stays as it is until that request settles;
    and whenever it settles with a page, the list shows the items that
    were published when the request was issued (none, for the shimmer
    page) followed by the kept items of that page. *)
Theorem C7_load_more_is_not_gated_by_loading
    (c : bool) (st : TransactionsManager.State) :
  (fetchMoreOf c (render st) st = st ↔
   errorOccuredDuringLastUpdate st = true ∨ observableRef c st = None)
  ∧ (∀ d, errorOccuredDuringLastUpdate st = false →
          cached c st = Some d →
          let st' := fetchMoreOf c (render st) st in
          let k := AwaitMore c (transactions d) (offset st + pageSize)
                             (lastUpdated st) in
          requests st' =
            requests st ++ [pageRequest c (filter st) (offset st + pageSize)]
          ∧ offset st' = offset st + pageSize
          ∧ observableRef c st' = observableRef c st
          ∧ inflight st' = inflight st ++ [k]
          ∧ (∀ page later,
               resp_error page = false →
               is_Some (observableRef c later) →
               ∃ d', cached c (settle k (Resolves page) later) = Some d'
                     ∧ transactions d' = transactions d ++ kept page
                     ∧ hasNext d' =
                         hasNextPage (txnsCount page) (offset st + pageSize))
          ∧ (∀ page,
               resp_error page = false →
               ∃ d', cached c (loadedMoreOf c (Resolves page) st) = Some d'
                     ∧ transactions d' = transactions d ++ kept page
                     ∧ (showShimmer d = true → transactions d = [] →
                        transactions d' = kept page))).
Proof.
  split.
  - split.
    + intros Hsame.
      destruct (errorOccuredDuringLastUpdate st) eqn:He; [by left|].
      destruct (observableRef c st) as [v|] eqn:Hv; [|by right].
      exfalso. apply (f_equal offset) in Hsame. revert Hsame.
      unfold fetchMoreOf.
      cbn [render r_errorOccuredDuringLastUpdate r_offset r_filter
           r_lastUpdated].
      rewrite He, Hv, bool_decide_eq_true_2 by eauto. cbn [negb andb].
      replace (observableRef c (incrementOffset pageSize st))
        with (Some v) by (rewrite <- Hv; by destruct c).
      destruct (Some v ≫= Maybe_data) as [d|].
      * cbn. unfold pageSize. lia.
      * unfold next.
        replace (observableRef c (incrementOffset pageSize st))
          with (Some v) by (rewrite <- Hv; by destruct c).
        destruct c; cbn; unfold pageSize; lia.
    + intros [He | Hn]; unfold fetchMoreOf; cbn [render
        r_errorOccuredDuringLastUpdate].
      * by rewrite He.
      * rewrite Hn, bool_decide_eq_false_2 by (by intros [? ?]).
        by rewrite andb_false_r.
  - intros d He Hc. cbv zeta.
    assert (Hissue :
      requests (fetchMoreOf c (render st) st) =
        requests st ++ [pageRequest c (filter st) (offset st + pageSize)]
      ∧ offset (fetchMoreOf c (render st) st) = offset st + pageSize
      ∧ observableRef c (fetchMoreOf c (render st) st) = observableRef c st
      ∧ inflight (fetchMoreOf c (render st) st) =
          inflight st ++
          [AwaitMore c (transactions d) (offset st + pageSize)
                     (lastUpdated st)]).
    { pose proof Hc as Hc'. apply cached_Some in Hc'.
      unfold fetchMoreOf. cbn [render r_errorOccuredDuringLastUpdate r_offset
        r_filter r_lastUpdated].
      rewrite He, Hc', bool_decide_eq_true_2 by eauto. cbn [negb andb].
      replace (observableRef c (incrementOffset pageSize st))
        with (Some (Maybe_of d)) by (rewrite <- Hc'; by destruct c).
      cbn [mbind option_bind Maybe_data].
      rewrite <- Hc'. destruct c; cbn; done. }
    destruct Hissue as (Hr & Ho & Href & Hi).
    split; [done|]. split; [done|]. split; [done|]. split; [done|]. split.
    + intros page later Hpage Hsome. cbn [settle]. rewrite Hpage.
      eexists. split.
      * apply cached_Some. by apply observableRef_next.
      * done.
    + intros page Hpage.
      destruct (loadedMoreOf_resolved c page st d He Hc Hpage)
        as ((d' & Hc' & Ht' & _) & _).
      exists d'. split; [done|]. split; [done|].
      intros _ Hempty. by rewrite Ht', Hempty.
Qed.

Lemma forceUpdateOf_effects c r now st :
  let st' := forceUpdateOf c r now st in
  offset st' = 0
  ∧ filter st' = filter st
  ∧ dateMode st' = dateMode st
  ∧ errorOccuredDuringLastUpdate st' = false
  ∧ requests st' = requests st ++ [pageRequest c (r_filter r) 0]
  ∧ inflight st' = inflight st ++ [AwaitForce c (r_lastUpdated r)]
  ∧ observableRef c st' =
      Some (match observableRef c st with
            | None => Maybe_unresolved
            | Some _ => Maybe_of (shimmerData c now)
            end).
Proof.
  unfold forceUpdateOf, next.
  replace (observableRef c (setErrorState false
             (updateLastUpdated now (resetOffset st))))
    with (observableRef c st) by (by destruct c).
  destruct (observableRef c st) eqn:E; destruct c; cbn in *;
    rewrite ?E; done.
Qed.

(** What every filter or date-mode change does: the state variable takes
    the new value, the offset returns to 0, the published items are
    replaced by the empty shimmer page (or the observable is created
    unresolved), and one request for the page at offset 0 leaves with the
    filter of the render that created the callback, the one in force
    before the change. *)
Lemma changeFilter_effects ch now st :
  let st' := changeFilter ch now st in
  offset st' = 0
  ∧ filter st' = newFilter ch st
  ∧ requests st' = requests st ++ [pageRequest false (filter st) 0]
  ∧ observableRef false st' =
      Some (match observableRef false st with
            | None => Maybe_unresolved
            | Some _ => Maybe_of (shimmerData false now)
            end).
Proof.
  unfold changeFilter.
  destruct ch; cbn zeta;
    unfold applyFilter, applyDateMode, clearFilter, clearDateMode,
      clearFilterWithUpdate, filterforupiId, upiLitefilter, forceUpdate;
    match goal with
    | |- context [forceUpdateOf false ?r now ?s] =>
        destruct (forceUpdateOf_effects false r now s)
          as (Ho & Hf & _ & _ & Hr & _ & Href)
    end;
    rewrite Ho, Hf, Hr, Href; done.
Qed.

(** C9. With a subscription in place, a value of the merged stream that is
    among the six listed ones runs the subscribed [forceUpdate] once: the
    offset returns to 0 and one request for the main list's first page
    leaves; any other value leaves the state as it is. *)
Theorem C9_recognized_event_forces_one_refresh
    (action : PaymentAction.t) (now : Z) (st : TransactionsManager.State)
    (r : Render) :
  paymentSubscriptionRef st = Some r →
  (recognized action = true →
     emit action now st = forceUpdate r now st
     ∧ offset (emit action now st) = 0
     ∧ requests (emit action now st) =
         requests st ++ [pageRequest false (r_filter r) 0]
     ∧ inflight (emit action now st) =
         inflight st ++ [AwaitForce false (r_lastUpdated r)])
  ∧ (recognized action = false → emit action now st = st)
  ∧ (recognized action = false ↔ ∃ tag, action = PaymentAction.OTHER tag).
Proof.
  intros Hsub. unfold emit. rewrite Hsub. split; [|split].
  - intros ->. split; [done|].
    destruct (forceUpdateOf_effects false r now st)
      as (Ho & _ & _ & _ & Hr & Hi & _).
    done.
  - by intros ->.
  - destruct action; cbn; split; try done; try (intros [? [=]]); eauto.
Qed.

(** *** Worked examples *)

Lemma C1_load_more_appends_pages_witness :
  ∃ d, cached false (loadedMoreAll false [page1; page2] mainLoaded) = Some d
       ∧ transactions d =
           [txn "t1" SUCCESS; txn "t2" PENDING; txn "t3" SUCCESS;
            txn "t4" DECLINED]
       ∧ hasNext d = false.
Proof.
  destruct (C1_load_more_appends_pages false 0 initial page0 [page1; page2])
    as (d & rq & Hc & Ht & _ & _ & _ & Hoff & Hnext).
  - reflexivity.
  - repeat constructor.
  - exists d. split; [exact Hc|]. split; [exact Ht|].
    destruct (Hnext page2 eq_refl) as [_ Hback]. apply Hback.
    rewrite Hoff. vm_compute. discriminate.
Defined.

(** The main list was fetched at instant 0 and holds its page; the circle
    list is refreshed at 1000 s.  At 1801 s the main list's own fetch is
    1801 s old, yet [shouldUpdate] answers [false]: the circle refresh
    moved the one clock. *)
Lemma C2_per_list_clock_counterexample :
  cached false circleLoaded = cached false mainLoaded
  ∧ is_Some (cached false mainLoaded)
  ∧ errorOccuredDuringLastUpdate circleLoaded = false
  ∧ requests circleLoaded = [pageRequest false ∅ 0; pageRequest true ∅ 0]
  ∧ shouldUpdate (render mainLoaded) 1801000 mainLoaded = true
  ∧ shouldUpdate (render circleLoaded) 1801000 circleLoaded = false.
Proof.
  vm_compute. repeat split; eauto.
Qed.

Lemma C2_refresh_due_on_shared_clock_witness :
  shouldUpdate (render circleLoaded) 2800000 circleLoaded = true
  ∧ shouldUpdateCircleHistory (render circleLoaded) 2800000 circleLoaded
    = true.
Proof.
  pose proof (C2_refresh_due_on_shared_clock (render circleLoaded) 2800000
                circleLoaded) as (Hmain & Hcircle & _).
  split; [apply Hmain | apply Hcircle];
    right; right; right; exists 1000000; (split; [reflexivity|lia]).
Defined.

(** While a refresh is in flight the main list holds the shimmer page; a
    load-more call then sends a request for offset 20 and moves the
    offset. *)
Lemma C7_load_more_while_loading_counterexample :
  cached false mainLoading = Some (shimmerData false 5000)
  ∧ inflight mainLoading = [AwaitForce false (Some 0)]
  ∧ offset mainLoading = 0
  ∧ offset (fetchMore (render mainLoading) mainLoading) = 20
  ∧ requests (fetchMore (render mainLoading) mainLoading) =
      requests mainLoading ++ [pageRequest false ∅ 20]
  ∧ fetchMore (render mainLoading) mainLoading ≠ mainLoading.
Proof.
  repeat split; try (vm_compute; reflexivity).
  intros H. apply (f_equal offset) in H. vm_compute in H. discriminate.
Qed.

Lemma C7_load_more_is_not_gated_by_loading_witness :
  requests (fetchMoreOf false (render mainLoading) mainLoading) =
    requests mainLoading ++ [pageRequest false ∅ 20]
  ∧ fetchMoreOf true (render mainLoading) mainLoading = mainLoading
  ∧ ∃ d', cached false (loadedMoreOf false (Resolves page1) mainLoading)
          = Some d'
          ∧ transactions d' = [txn "t3" SUCCESS].
Proof.
  split; [|split].
  - pose proof (C7_load_more_is_not_gated_by_loading false mainLoading)
      as [_ H].
    destruct (H (shimmerData false 5000)) as (Hr & _);
      [reflexivity | reflexivity | exact Hr].
  - apply (C7_load_more_is_not_gated_by_loading true mainLoading).
    right. reflexivity.
  - pose proof (C7_load_more_is_not_gated_by_loading false mainLoading)
      as [_ H].
    destruct (H (shimmerData false 5000) eq_refl eq_refl)
      as (_ & _ & _ & _ & _ & Hsettled).
    destruct (Hsettled page1 eq_refl) as (d' & Hc' & _ & Hshimmer).
    exists d'. split; [exact Hc'|]. exact (Hshimmer eq_refl eq_refl).
Defined.

(** C8 (at the failing input). On the loaded main list with no filter,
    [applyFilter] with a payee-address filter stores the new filter and
    resets the offset, and the request it sends for the first page carries
    the filter in force before the call, the empty one. *)
Theorem C8_applyFilter_requests_under_previous_filter :
  let requested : gmap string string := {[ "vpa" := "asha@upi" ]} in
  let st' := changeFilter (ApplyFilter requested) 7000 mainLoaded in
  filter mainLoaded = ∅
  ∧ filter st' = requested
  ∧ offset st' = 0
  ∧ cached false st' = Some (shimmerData false 7000)
  ∧ last (requests st') = Some (pageRequest false ∅ 0)
  ∧ requestFilter <$> last (requests st') ≠ Some requested.
Proof.
  cbv zeta.
  destruct (changeFilter_effects
              (ApplyFilter {[ "vpa" := "asha@upi" ]}) 7000 mainLoaded)
    as (Ho & Hf & Hr & Href).
  split; [reflexivity|]. split; [exact Hf|]. split; [exact Ho|].
  split; [unfold cached; rewrite Href; reflexivity|].
  rewrite Hr, last_snoc. split; [reflexivity|].
  cbn. intros H.
  apply (f_equal (λ o : option (gmap string string),
                    o ≫= (λ m, m !! "vpa"))) in H.
  vm_compute in H. discriminate.
Qed.

Lemma C9_recognized_event_forces_one_refresh_witness :
  requests (emit PaymentAction.SENT 9000 mainSubscribed) =
    requests mainSubscribed ++ [pageRequest false ∅ 0]
  ∧ offset (emit PaymentAction.SENT 9000 mainSubscribed) = 0
  ∧ emit (PaymentAction.OTHER "REFUNDED") 9000 mainSubscribed
    = mainSubscribed.
Proof.
  destruct (C9_recognized_event_forces_one_refresh PaymentAction.SENT 9000
              mainSubscribed (render mainLoaded) eq_refl)
    as (Hyes & _ & _).
  destruct (C9_recognized_event_forces_one_refresh
              (PaymentAction.OTHER "REFUNDED") 9000
              mainSubscribed (render mainLoaded) eq_refl)
    as (_ & Hno & _).
  destruct (Hyes eq_refl) as (_ & Ho & Hr & _).
  split; [exact Hr|]. split; [exact Ho|]. exact (Hno eq_refl).
Defined.

End TransactionsManagerFacts.

(** * Properties of the status-poll rate limiter *)

Module StatusRefreshFacts.
Import StatusRefresh Samples.

Lemma findIndex_Some tid store i :
  findIndex tid store = Some i ↔
  ∃ r, list_find (λ item, transactionId item = tid) store = Some (i, r).
Proof.
  unfold findIndex.
  destruct (list_find _ store) as [[j r]|]; cbn; split.
  - intros [= ->]. eauto.
  - intros (r' & [= -> ->]). done.
  - done.
  - intros (r' & [=]).
Qed.

(** A poll for an exhausted transaction: no fetch, no write, no refresh. *)
Lemma poll_exhausted store c :
  exhausted_for store (poll_transaction c) →
  fetched (poll store c) = []
  ∧ written (poll store c) = None
  ∧ refreshes (poll store c) = 0%nat
  ∧ store_after store (poll store c) = store.
Proof.
  intros Hex. unfold store_after.
  assert (H : fetched (poll store c) = [] ∧ written (poll store c) = None
              ∧ refreshes (poll store c) = 0%nat);
    [|destruct H as (? & -> & ?); done].
  unfold poll, fetchTransactionStatusDetails.
  destruct (truthy (txn_exhausted (Some (poll_transaction c)))) eqn:Hcaller;
    [done|].
  destruct (blocked _ _ _); [done|].
  destruct Hex as [Hex | (i & r & Hfind & Hrec)]; [congruence|].
  assert (Hidx : findIndex (id (poll_transaction c)) store = Some i)
    by (apply findIndex_Some; eauto).
  rewrite Hidx. unfold handleSubsequentRefresh.
  apply list_find_Some in Hfind as (Hlook & _ & _). rewrite Hlook.
  destruct (rec_reqChkTxnParams r); [|done].
  rewrite Hrec. done.
Qed.

(** C3. Polls for transactions that are marked exhausted, in any number and
    any order: none of them fetches, none of them writes the preference,
    and the store at the end is the store at the start. *)
Theorem C3_exhausted_polls_fetch_and_write_nothing
    (store : list CheckpointRecord) (cs : list Poll) :
  Forall (λ c, exhausted_for store (poll_transaction c)) cs →
  (polls store cs).2 = store
  ∧ length (polls store cs).1 = length cs
  ∧ Forall (λ o, fetched o = [] ∧ written o = None ∧ refreshes o = 0%nat)
           (polls store cs).1.
Proof.
  induction cs as [|c cs IH]; intros Hall; [by repeat constructor|].
  apply Forall_cons in Hall as [Hc Hcs].
  destruct (poll_exhausted store c Hc) as (Hf & Hw & Hr & Hs).
  cbn [polls]. rewrite Hs.
  destruct (polls store cs) as [os store'] eqn:E.
  destruct (IH Hcs) as (Hstore & Hlen & Hos). cbn in *.
  split; [done|]. split; [by rewrite Hlen|].
  constructor; done.
Qed.

(** C6. When the transport rejects, the call writes nothing and triggers no
    list refresh; either no request had been made at all, or the request
    was made and the single thing shown is the error notification
    "something went wrong", with nothing returned.  Hence a write implies
    that the transport resolved. *)
Theorem C6_failed_fetch_leaves_store_untouched
    (now : Z) (store : list CheckpointRecord) (t : Transaction) (cp1 : Z) :
  let o := fetchTransactionStatusDetails now store Rejected t cp1 in
  written o = None
  ∧ store_after store o = store
  ∧ refreshes o = 0%nat
  ∧ (fetched o = []
     ∨ (fetched o = [id t]
        ∧ snacks o =
            [{| severity := Error; key := SOMETHING_WRONG; args := NoArgs |}]
        ∧ returned o = None
        ∧ rejected o = false
        ∧ o = caught (id t)))
  ∧ ∀ resp data,
      written (fetchTransactionStatusDetails now store resp t cp1) = Some data →
      ∃ rt, resp = Resolved rt
            ∧ fetched (fetchTransactionStatusDetails now store resp t cp1)
              = [id t].
Proof.
  assert (Hrej : let o := fetchTransactionStatusDetails now store Rejected t cp1
                 in written o = None ∧ refreshes o = 0%nat
                    ∧ (fetched o = [] ∨ o = caught (id t))).
  { unfold fetchTransactionStatusDetails.
    destruct (truthy _); [cbn; auto|].
    destruct (blocked _ _ _); [cbn; auto|].
    destruct (findIndex _ _) as [i|]; [|cbn; auto].
    unfold handleSubsequentRefresh.
    destruct (store !! i) as [r|]; [|cbn; auto].
    destruct (rec_reqChkTxnParams r) as [p|]; [|cbn; auto].
    case_branches; cbn; auto. }
  cbv zeta in *. destruct Hrej as (Hw & Hr & Hf).
  split; [done|]. split; [unfold store_after; by rewrite Hw|].
  split; [done|]. split.
  { destruct Hf as [Hf | Hf]; [by left|]. right. rewrite Hf.
    repeat split; reflexivity. }
  intros [|rt] data Hdata; [congruence|].
  exists rt. split; [done|]. revert Hdata.
  unfold fetchTransactionStatusDetails.
  destruct (truthy _); [done|].
  destruct (blocked _ _ _); [done|].
  destruct (findIndex _ _) as [i|].
  - unfold handleSubsequentRefresh.
    destruct (store !! i) as [r|]; [|done].
    destruct (rec_reqChkTxnParams r) as [p|]; [|done].
    unfold handleAfterCheckpoint2Refresh, handleWithinCheckpoint2Refresh.
    destruct (counters rt) as [[cur max] cp2].
    case_branches; done.
  - unfold handleFirstTimeRefresh.
    destruct (counters rt) as [[cur max] cp2].
    destruct rt as [tx|]; [|done]. destruct (payerInfo tx); done.
Qed.

Lemma blocked_true t ms cp1 :
  blocked t ms cp1 = true ↔
  txn_role t ≠ Some "PRIMARY" ∧ txn_role t ≠ Some "SECONDARY"
  ∧ (ms <= 1000 * cp1)%Z.
Proof.
  unfold blocked.
  rewrite !andb_true_iff, !bool_decide_eq_true, Z.leb_le. tauto.
Qed.

Lemma blocked_false_late t ms cp1 :
  (1000 * cp1 < ms)%Z → blocked t ms cp1 = false.
Proof.
  intros H. apply not_true_is_false. rewrite blocked_true. lia.
Qed.

(** C4 (amended). For a transaction whose own exhausted flag is not set:
    with a role that is neither PRIMARY nor SECONDARY and an age of at most
    [checkpoint1] seconds, the call is the "blocked" notification and
    nothing else; with an age above [checkpoint1] and no record for the
    id, the call makes exactly one request, and it puts a record in front
    of the stored list when the request resolves to a transaction that has
    payer information and counters that are not [null]. *)
Theorem C4_gate_then_first_refresh
    (now : Z) (store : list CheckpointRecord) (resp : FetchResult)
    (t : Transaction) (cp1 : Z) :
  truthy (txn_exhausted (Some t)) = false →
  let o := fetchTransactionStatusDetails now store resp t cp1 in
  (txn_role t ≠ Some "PRIMARY" → txn_role t ≠ Some "SECONDARY" →
   (now - createdAt t <= 1000 * cp1)%Z →
   o = said (info PENDING_STATUS_BLOCK (BlockArgs cp1))
   ∧ fetched o = [] ∧ written o = None)
  ∧ ((1000 * cp1 < now - createdAt t)%Z →
     findIndex (id t) store = None →
     fetched o = [id t]
     ∧ ∀ tx payer cur max cp2,
         resp = Resolved (Some tx) →
         payerInfo tx = Some payer →
         counters (Some tx) = (cur, max, cp2) →
         cur ≠ JNull → max ≠ JNull →
         written o = Some (recordOf tx :: store)
         ∧ store_after store o = recordOf tx :: store
         ∧ refreshes o = 1%nat).
Proof.
  intros Hcaller o. subst o. unfold fetchTransactionStatusDetails.
  rewrite Hcaller. split.
  - intros Hp Hs Hage.
    rewrite (proj2 (blocked_true t _ cp1)) by done. done.
  - intros Hage Hnone. rewrite blocked_false_late by done. rewrite Hnone.
    split.
    + destruct resp as [|rt]; [done|].
      unfold handleFirstTimeRefresh.
      destruct (counters rt) as [[cur max] cp2].
      destruct rt as [tx|]; [|done]. destruct (payerInfo tx); done.
    + intros tx payer cur max cp2 -> Hpayer Hcnt Hcur Hmax.
      unfold store_after, handleFirstTimeRefresh. rewrite Hcnt, Hpayer.
      destruct cur, max; done.
Qed.

(** Age 130 s against a first checkpoint of 120 s, no record: the one
    request is made, and with [null] counters in the answer, or with a
    rejected request, no record is created. *)
Lemma C4_first_refresh_without_record_counterexample :
  let delegated :=
    answer DELEGATE_INITIATED (Some "PRIMARY") None
      (Some (params JNull JNull JNull)) in
  let o := fetchTransactionStatusDetails 130000 [] (Resolved (Some delegated))
             polled 120 in
  let o' := fetchTransactionStatusDetails 130000 [] Rejected polled 120 in
  findIndex (id polled) [] = None
  ∧ fetched o = ["tx1"] ∧ written o = None ∧ store_after [] o = []
  ∧ fetched o' = ["tx1"] ∧ written o' = None ∧ store_after [] o' = [].
Proof. vm_compute. repeat split. Qed.

Lemma C4_gate_then_first_refresh_witness :
  fetchTransactionStatusDetails 60000 [] Rejected polled 120
    = said (info PENDING_STATUS_BLOCK (BlockArgs 120))
  ∧ fetched (fetchTransactionStatusDetails 130000 []
               (Resolved (Some (answer PENDING None (Some false)
                                  (Some (params (JNum 1) (JNum 3)
                                                (JNum 7200))))))
               polled 120) = ["tx1"]
  ∧ written (fetchTransactionStatusDetails 130000 []
               (Resolved (Some (answer PENDING None (Some false)
                                  (Some (params (JNum 1) (JNum 3)
                                                (JNum 7200))))))
               polled 120)
    = Some [stored 1 3 false].
Proof.
  split; [|split].
  - apply (C4_gate_then_first_refresh 60000 [] Rejected polled 120 eq_refl);
      [discriminate | discriminate | vm_compute; discriminate].
  - apply (C4_gate_then_first_refresh 130000 [] _ polled 120 eq_refl);
      reflexivity.
  - destruct (C4_gate_then_first_refresh 130000 []
                (Resolved (Some (answer PENDING None (Some false)
                                   (Some (params (JNum 1) (JNum 3)
                                                 (JNum 7200))))))
                polled 120 eq_refl) as [_ H].
    destruct (H eq_refl eq_refl) as [_ H'].
    destruct (H' _ (payer None) (JNum 1) (JNum 3) (JNum 7200)
                 eq_refl eq_refl eq_refl) as (Hw & _); [done|done|].
    exact Hw.
Defined.

(** C5 (amended). For a call that passes the exhausted check and the first
    checkpoint and finds a record with counters: if the record is marked
    exhausted the outcome is "limit exceeded", whatever the counters, and
    no request is made; if it is not and the second checkpoint has not been
    reached, a record whose [currentCount] is not below its [maxCount]
    gives "try again after the time shown" without a request, and a record
    whose [currentCount] is below its [maxCount] gives "attempts exceeded"
    when the answer carries equal counters and a non-final status. *)
Theorem C5_outcome_by_stored_record
    (now : Z) (store : list CheckpointRecord) (resp : FetchResult)
    (t : Transaction) (cp1 : Z) (i : nat) (r : CheckpointRecord)
    (p : ReqChkTxnParams) :
  truthy (txn_exhausted (Some t)) = false →
  blocked t (now - createdAt t) cp1 = false →
  list_find (λ item, transactionId item = id t) store = Some (i, r) →
  rec_reqChkTxnParams r = Some p →
  let o := fetchTransactionStatusDetails now store resp t cp1 in
  let future := futureDate (refreshedCreatedAt r) (checkPoint2 p) in
  (truthy (rec_isReqChkTxnExhausted r) = true →
   o = said (error PENDING_STATUS_LIMT_EXCEEDED_DEFAULT NoArgs))
  ∧ (truthy (rec_isReqChkTxnExhausted r) = false →
     js_seconds_ge (now - createdAt t) (checkPoint2 p) = false →
     (js_lt (currentCount p) (maxCount p) = false →
      o = said (info PENDING_STATUS_AFTER_SOME_TIME (TimeArgs future)))
     ∧ (js_lt (currentCount p) (maxCount p) = true →
        ∀ rt cur max cp2,
          resp = Resolved rt →
          counters rt = (cur, max, cp2) →
          js_strict_eq max cur = true →
          isNonFinalStatus rt = true →
          snacks o =
            [error PENDING_STATUS_ATTEMPTS_EXCEEDED
                   (CountTimeArgs cur max future)]
          ∧ fetched o = [id t])).
Proof.
  intros Hcaller Hgate Hfind Hp o future. subst o future.
  unfold fetchTransactionStatusDetails. rewrite Hcaller, Hgate.
  rewrite (proj2 (findIndex_Some (id t) store i)) by eauto.
  unfold handleSubsequentRefresh.
  apply list_find_Some in Hfind as (Hlook & _ & _). rewrite Hlook, Hp.
  split.
  - intros ->. done.
  - intros -> ->. cbn [negb andb]. split.
    + intros ->. done.
    + intros -> rt cur max cp2 -> Hcnt Heq Hnonfinal.
      unfold handleWithinCheckpoint2Refresh.
      rewrite Hcnt, Heq, Hnonfinal. done.
Qed.

(** A record at 3 of 3, not exhausted, second checkpoint at two hours; the
    transport would answer "pending, 3 of 3".  One hour after creation no
    request is made and the outcome is "try again after"; at two hours the
    request is made and the outcome is the after-two-hours message.  The
    "attempts exceeded" message appears in neither. *)
Lemma C5_stored_equal_counts_counterexample :
  let reply :=
    Resolved (Some (answer PENDING None (Some false)
                      (Some (params (JNum 3) (JNum 3) (JNum 7200))))) in
  let early :=
    fetchTransactionStatusDetails 3600000 [stored 3 3 false] reply polled 120 in
  let late :=
    fetchTransactionStatusDetails 7200000 [stored 3 3 false] reply polled 120 in
  snacks early =
    [info PENDING_STATUS_AFTER_SOME_TIME (TimeArgs (Some 7200000))]
  ∧ fetched early = []
  ∧ snacks late =
      [info PENDING_STATUS_AFTER_TWO_HOURS_ATTEMPTS
            (CountArgs (JNum 3) (JNum 3))]
  ∧ fetched late = ["tx1"].
Proof. vm_compute. repeat split. Qed.

Lemma C5_outcome_by_stored_record_witness :
  fetchTransactionStatusDetails 3600000 [stored 1 3 true] Rejected polled 120
    = said (error PENDING_STATUS_LIMT_EXCEEDED_DEFAULT NoArgs)
  ∧ snacks (fetchTransactionStatusDetails 3600000 [stored 2 3 false]
              (Resolved (Some (answer PENDING None (Some false)
                                 (Some (params (JNum 3) (JNum 3)
                                               (JNum 7200))))))
              polled 120)
    = [error PENDING_STATUS_ATTEMPTS_EXCEEDED
             (CountTimeArgs (JNum 3) (JNum 3) (Some 7200000))].
Proof.
  split.
  - apply (C5_outcome_by_stored_record 3600000 [stored 1 3 true] Rejected
             polled 120 0 (stored 1 3 true)
             (params (JNum 1) (JNum 3) (JNum 7200)));
      reflexivity.
  - destruct (C5_outcome_by_stored_record 3600000 [stored 2 3 false]
                (Resolved (Some (answer PENDING None (Some false)
                                   (Some (params (JNum 3) (JNum 3)
                                                 (JNum 7200))))))
                polled 120 0 (stored 2 3 false)
                (params (JNum 2) (JNum 3) (JNum 7200))
                eq_refl eq_refl eq_refl eq_refl) as [_ H].
    destruct (H eq_refl eq_refl) as [_ H'].
    destruct (H' eq_refl _ (JNum 3) (JNum 3) (JNum 7200)
                 eq_refl eq_refl eq_refl eq_refl) as [Hs _].
    exact Hs.
Defined.

(** The classification applied to the answer of a first refresh: equal
    counters with a non-final status end on "attempts exceeded"; an
    exhausted answer whose status is not SUCCESS is "limit exceeded",
    unless the role-specific branch for a delegate-initiated answer with
    [null] counters has returned first. *)
Lemma handleTransactionStatusMessages_classes rt ex rl nm future cur max :
  (truthy ex = false → js_strict_eq max cur = true →
   isNonFinalStatus rt = true → status_is rt DELEGATE_INITIATED = false →
   handleTransactionStatusMessages rt ex rl nm future cur max =
     [info PENDING_STATUS_WITHIN_TWO_HOURS (CountTimeArgs cur max future);
      error PENDING_STATUS_ATTEMPTS_EXCEEDED (CountTimeArgs cur max future)])
  ∧ (truthy ex = true → status_is rt SUCCESS = false →
     status_is rt DELEGATE_INITIATED = false →
     handleTransactionStatusMessages rt ex rl nm future cur max =
       [error PENDING_STATUS_LIMT_EXCEEDED_DEFAULT NoArgs]).
Proof.
  unfold handleTransactionStatusMessages. split.
  - intros -> -> -> ->. done.
  - intros -> -> ->. done.
Qed.

(** C10. A first refresh whose answer carries [null] for both counters
    writes nothing: the store is the one the call found, still without a
    record for the id, whatever notification is shown (for a
    delegate-initiated answer, the one of the payer's role); so every later
    call that passes the gate makes the request again and is again handled
    as a first refresh. *)
Theorem C10_null_counters_create_no_record
    (now : Z) (store : list CheckpointRecord) (t : Transaction) (cp1 : Z)
    (rt : option Transaction) (cp2 : JsNum) :
  truthy (txn_exhausted (Some t)) = false →
  blocked t (now - createdAt t) cp1 = false →
  findIndex (id t) store = None →
  counters rt = (JNull, JNull, cp2) →
  let o := fetchTransactionStatusDetails now store (Resolved rt) t cp1 in
  fetched o = [id t]
  ∧ written o = None
  ∧ store_after store o = store
  ∧ findIndex (id t) (store_after store o) = None
  ∧ (∀ tx payer, rt = Some tx → payerInfo tx = Some payer →
       status tx = DELEGATE_INITIATED →
       (role payer = Some "PRIMARY" →
        snacks o = [error PENDING_TXN_DELEGATE_INITIATED_PRIMARY NoArgs])
       ∧ (role payer = Some "SECONDARY" →
          snacks o = [error PENDING_TXN_DELEGATE_INITIATED_SECONDARY
                            (NameArgs (name payer))]))
  ∧ ∀ now' resp' cp1',
      blocked t (now' - createdAt t) cp1' = false →
      let o' := fetchTransactionStatusDetails now' (store_after store o)
                  resp' t cp1' in
      fetched o' = [id t]
      ∧ o' = match resp' with
             | Rejected => caught (id t)
             | Resolved rt' =>
               default (caught (id t))
                       (handleFirstTimeRefresh (id t) rt' store)
             end.
Proof.
  intros Hcaller Hgate Hnone Hcnt o.
  assert (Hfirst : ∀ n resp c,
            blocked t (n - createdAt t) c = false →
            fetchTransactionStatusDetails n store resp t c =
              match resp with
              | Rejected => caught (id t)
              | Resolved rt' =>
                default (caught (id t))
                        (handleFirstTimeRefresh (id t) rt' store)
              end).
  { intros n resp c Hg. unfold fetchTransactionStatusDetails.
    by rewrite Hcaller, Hg, Hnone. }
  assert (Hfetch : ∀ resp,
            fetched match resp with
                    | Rejected => caught (id t)
                    | Resolved rt' =>
                      default (caught (id t))
                              (handleFirstTimeRefresh (id t) rt' store)
                    end = [id t]).
  { intros [|rt']; [done|]. unfold handleFirstTimeRefresh.
    destruct (counters rt') as [[? ?] ?].
    destruct rt' as [tx|]; [|done]. destruct (payerInfo tx); done. }
  assert (Hw : written o = None).
  { subst o. rewrite Hfirst by done. unfold handleFirstTimeRefresh.
    rewrite Hcnt. destruct rt as [tx|]; [|done].
    destruct (payerInfo tx); done. }
  assert (Hs : store_after store o = store)
    by (unfold store_after; by rewrite Hw).
  split; [subst o; rewrite Hfirst by done; apply (Hfetch (Resolved rt))|].
  split; [done|]. split; [done|]. split; [by rewrite Hs|]. split.
  - intros tx payer -> Hpayer Hstatus. subst o. rewrite Hfirst by done.
    unfold handleFirstTimeRefresh. rewrite Hcnt, Hpayer. cbn [default snacks].
    unfold handleTransactionStatusMessages, status_is. cbn [fmap option_fmap
      option_map]. rewrite Hstatus.
    rewrite bool_decide_eq_true_2 by done. cbn [js_strict_eq andb].
    split; intros ->; reflexivity.
  - intros now' resp' cp1' Hg o'. subst o'. rewrite Hs, Hfirst by done.
    split; [apply (Hfetch resp') | done].
Qed.

Lemma C10_null_counters_create_no_record_witness :
  let delegated :=
    answer DELEGATE_INITIATED (Some "SECONDARY") None
      (Some (params JNull JNull JNull)) in
  let o := fetchTransactionStatusDetails 130000 []
             (Resolved (Some delegated)) polled 120 in
  written o = None
  ∧ snacks o =
      [error PENDING_TXN_DELEGATE_INITIATED_SECONDARY (NameArgs "Asha")]
  ∧ fetched (fetchTransactionStatusDetails 140000 (store_after [] o)
               (Resolved (Some delegated)) polled 120) = ["tx1"].
Proof.
  cbv zeta.
  destruct (C10_null_counters_create_no_record 130000 [] polled 120
              (Some (answer DELEGATE_INITIATED (Some "SECONDARY") None
                       (Some (params JNull JNull JNull))))
              JNull eq_refl eq_refl eq_refl eq_refl)
    as (_ & Hw & _ & _ & Hmsg & Hlater).
  split; [exact Hw|]. split.
  - destruct (Hmsg _ (payer (Some "SECONDARY")) eq_refl eq_refl eq_refl)
      as [_ H]. exact (H eq_refl).
  - destruct (Hlater 140000
                (Resolved (Some (answer DELEGATE_INITIATED (Some "SECONDARY")
                                   None (Some (params JNull JNull JNull)))))
                120 eq_refl) as [H _].
    exact H.
Defined.

Lemma C3_exhausted_polls_fetch_and_write_nothing_witness :
  let byCaller :=
    {| poll_now := 9000000; poll_resp := Rejected;
       poll_transaction :=
         answer PENDING None (Some true) None;
       poll_checkpoint1 := 120 |} in
  let byRecord :=
    {| poll_now := 9000000;
       poll_resp := Resolved (Some (answer SUCCESS None None None));
       poll_transaction := polled; poll_checkpoint1 := 120 |} in
  (polls [stored 3 3 true] [byCaller; byRecord; byRecord]).2
  = [stored 3 3 true].
Proof.
  cbv zeta.
  apply (C3_exhausted_polls_fetch_and_write_nothing [stored 3 3 true]).
  apply Forall_cons; split; [left; reflexivity|].
  apply Forall_cons; split;
    [right; exists 0%nat, (stored 3 3 true); split; reflexivity|].
  apply Forall_cons; split;
    [right; exists 0%nat, (stored 3 3 true); split; reflexivity|].
  apply Forall_nil_2.
Defined.

Lemma C6_failed_fetch_leaves_store_untouched_witness :
  snacks (fetchTransactionStatusDetails 3600000 [stored 1 3 false] Rejected
            polled 120)
    = [{| severity := Error; key := SOMETHING_WRONG; args := NoArgs |}]
  ∧ written (fetchTransactionStatusDetails 3600000 [stored 1 3 false] Rejected
               polled 120) = None
  ∧ ∃ rt, Resolved (Some (answer PENDING None (Some false)
                             (Some (params (JNum 2) (JNum 3) (JNum 7200)))))
          = Resolved rt.
Proof.
  destruct (C6_failed_fetch_leaves_store_untouched 3600000
              [stored 1 3 false] polled 120)
    as (Hw & _ & _ & Hcaught & Hwrite).
  split; [|split; [exact Hw|]].
  - destruct Hcaught as [Hnone | (_ & Hs & _)]; [|exact Hs].
    vm_compute in Hnone. discriminate.
  - destruct (Hwrite
                (Resolved (Some (answer PENDING None (Some false)
                                   (Some (params (JNum 2) (JNum 3)
                                                 (JNum 7200))))))
                [stored 2 3 false] eq_refl) as (rt & Hrt & _).
    exists rt. exact Hrt.
Defined.

End StatusRefreshFacts.

(** * Further properties of the status-poll rate limiter *)

Module StatusRefreshMore.
Import StatusRefresh Samples.

(** The call seen through the record [findIndex] selects. *)
Lemma poll_by_record now store resp t cp1 :
  truthy (txn_exhausted (Some t)) = false →
  blocked t (now - createdAt t) cp1 = false →
  fetchTransactionStatusDetails now store resp t cp1 =
    match list_find (λ item, transactionId item = id t) store with
    | None =>
      match resp with
      | Rejected => caught (id t)
      | Resolved rt =>
        default (caught (id t)) (handleFirstTimeRefresh (id t) rt store)
      end
    | Some (i, r) =>
      match rec_reqChkTxnParams r with
      | None => uncaught
      | Some p =>
        let isExhausted := truthy (rec_isReqChkTxnExhausted r) in
        let formattedTime :=
          futureDate (refreshedCreatedAt r) (checkPoint2 p) in
        if negb isExhausted
           && js_seconds_ge (now - createdAt t) (checkPoint2 p) then
          handleAfterCheckpoint2Refresh t store i resp
        else if negb isExhausted && js_lt (currentCount p) (maxCount p) then
          handleWithinCheckpoint2Refresh t store i formattedTime resp
        else if isExhausted then
          said (error PENDING_STATUS_LIMT_EXCEEDED_DEFAULT NoArgs)
        else
          said (info PENDING_STATUS_AFTER_SOME_TIME (TimeArgs formattedTime))
      end
    end.
Proof.
  intros Hcaller Hgate. unfold fetchTransactionStatusDetails, findIndex.
  rewrite Hcaller, Hgate.
  destruct (list_find _ store) as [[i r]|] eqn:Hfind; cbn [fmap option_fmap
    option_map fst]; [|done].
  unfold handleSubsequentRefresh.
  apply list_find_Some in Hfind as (Hlook & _ & _). by rewrite Hlook.
Qed.

Lemma fetched_first_refresh tid rt store :
  fetched (default (caught tid) (handleFirstTimeRefresh tid rt store)) = [tid].
Proof.
  unfold handleFirstTimeRefresh. destruct (counters rt) as [[? ?] ?].
  destruct rt as [tx|]; [|done]. destruct (payerInfo tx); done.
Qed.

Lemma fetched_after t store i resp :
  fetched (handleAfterCheckpoint2Refresh t store i resp) = [id t].
Proof.
  destruct resp as [|rt]; [done|]. unfold handleAfterCheckpoint2Refresh.
  destruct (counters rt) as [[? ?] ?]. done.
Qed.

Lemma fetched_within t store i ft resp :
  fetched (handleWithinCheckpoint2Refresh t store i ft resp) = [id t].
Proof.
  destruct resp as [|rt]; [done|]. unfold handleWithinCheckpoint2Refresh.
  destruct (counters rt) as [[? ?] ?]. done.
Qed.

(** X1. When the limiter lets a poll through.  A call makes at most one
    request, for the polled id, and it makes it exactly when the caller's
    copy is not exhausted, the first checkpoint does not block, and either
    no record is stored for the id or the stored record has counters, is
    not exhausted, and is past its second checkpoint or below its maximum
    count.  What the transport would answer plays no part. *)
Theorem X1_poll_requests_iff_allowed
    (now : Z) (store : list CheckpointRecord) (resp : FetchResult)
    (t : Transaction) (cp1 : Z) :
  let o := fetchTransactionStatusDetails now store resp t cp1 in
  (fetched o = [] ∨ fetched o = [id t])
  ∧ (fetched o = [id t] ↔
       truthy (txn_exhausted (Some t)) = false
       ∧ blocked t (now - createdAt t) cp1 = false
       ∧ match list_find (λ item, transactionId item = id t) store with
         | None => True
         | Some (_, r) =>
           match rec_reqChkTxnParams r with
           | None => False
           | Some p =>
             truthy (rec_isReqChkTxnExhausted r) = false
             ∧ (js_seconds_ge (now - createdAt t) (checkPoint2 p) = true
                ∨ js_lt (currentCount p) (maxCount p) = true)
           end
         end).
Proof.
  cbv zeta.
  destruct (truthy (txn_exhausted (Some t))) eqn:Hcaller.
  { unfold fetchTransactionStatusDetails. rewrite Hcaller. cbn.
    split; [by left|]. split; [done|]. by intros (? & _). }
  destruct (blocked t (now - createdAt t) cp1) eqn:Hgate.
  { unfold fetchTransactionStatusDetails. rewrite Hcaller, Hgate. cbn.
    split; [by left|]. split; [done|]. by intros (_ & ? & _). }
  rewrite poll_by_record by done.
  destruct (list_find _ store) as [[i r]|].
  - destruct (rec_reqChkTxnParams r) as [p|].
    + cbv zeta.
      destruct (truthy (rec_isReqChkTxnExhausted r)); cbn [negb andb].
      { split; [by left|]. split; [done|]. by intros (_ & _ & ? & _). }
      destruct (js_seconds_ge _ _).
      { rewrite fetched_after. split; [by right|]. naive_solver. }
      destruct (js_lt _ _).
      { rewrite fetched_within. split; [by right|]. naive_solver. }
      cbn. split; [by left|]. split; [done|].
      intros (_ & _ & _ & [? | ?]); done.
    + cbn. split; [by left|]. split; [done|]. by intros (_ & _ & ?).
  - assert (Hf : fetched match resp with
                         | Rejected => caught (id t)
                         | Resolved rt =>
                           default (caught (id t))
                                   (handleFirstTimeRefresh (id t) rt store)
                         end = [id t]).
    { destruct resp; [done|]. apply fetched_first_refresh. }
    rewrite Hf. split; [by right|]. done.
Qed.

Lemma ids_alter_refresh rt i (l : list CheckpointRecord) :
  transactionId <$> alter (refresh_record rt) i l = transactionId <$> l.
Proof.
  revert i. induction l as [|r l IH]; intros [|i]; cbn; [done..|].
  f_equal. apply IH.
Qed.

(** The three ways a call can leave the store. *)
Lemma store_after_cases now store resp t cp1 :
  let store' :=
    store_after store (fetchTransactionStatusDetails now store resp t cp1) in
  store' = store
  ∨ (∃ tx, resp = Resolved (Some tx)
           ∧ list_find (λ item, transactionId item = id t) store = None
           ∧ store' = recordOf tx :: store)
  ∨ (∃ i r rt, resp = Resolved rt
               ∧ list_find (λ item, transactionId item = id t) store
                 = Some (i, r)
               ∧ store' = alter (refresh_record rt) i store).
Proof.
  cbv zeta. unfold store_after.
  destruct (truthy (txn_exhausted (Some t))) eqn:Hcaller.
  { unfold fetchTransactionStatusDetails. rewrite Hcaller. by left. }
  destruct (blocked t (now - createdAt t) cp1) eqn:Hgate.
  { unfold fetchTransactionStatusDetails. rewrite Hcaller, Hgate. by left. }
  rewrite poll_by_record by done.
  destruct (list_find _ store) as [[i r]|] eqn:Hfind.
  - destruct (rec_reqChkTxnParams r) as [p|]; [|by left]. cbv zeta.
    destruct resp as [|rt].
    { left. unfold handleAfterCheckpoint2Refresh,
        handleWithinCheckpoint2Refresh. case_branches; done. }
    unfold handleAfterCheckpoint2Refresh, handleWithinCheckpoint2Refresh.
    destruct (counters rt) as [[cur max] cp2].
    destruct (negb _ && js_seconds_ge _ _);
      [right; right; by exists i, r, rt|].
    destruct (negb _ && js_lt _ _); [right; right; by exists i, r, rt|].
    left. case_branches; done.
  - destruct resp as [|rt]; [by left|].
    unfold handleFirstTimeRefresh. destruct (counters rt) as [[cur max] cp2].
    destruct rt as [tx|]; [|by left].
    destruct (payerInfo tx); [|by left]. cbn.
    destruct (js_not_null cur && js_not_null max); [|by left].
    right. left. by exists tx.
Qed.

(** X2. What a call can do to the store: nothing; or put one record in
    front, built from the answer (a first refresh); or, in the record it
    found and nowhere else, replace the counters and the exhausted flag by
    those of the answer, keeping the id and the creation instant.  So
    records are never removed or reordered, the ids stay in their
    positions, and the records of other transactions are still there,
    unchanged. *)
Theorem X2_poll_keeps_other_records
    (now : Z) (store : list CheckpointRecord) (resp : FetchResult)
    (t : Transaction) (cp1 : Z) :
  let store' :=
    store_after store (fetchTransactionStatusDetails now store resp t cp1) in
  (store' = store
   ∨ (∃ tx, resp = Resolved (Some tx)
            ∧ list_find (λ item, transactionId item = id t) store = None
            ∧ store' =
                {| transactionId := id tx;
                   rec_reqChkTxnParams := reqChkTxnParams tx;
                   rec_isReqChkTxnExhausted :=
                     txnInfo tx ≫= isReqChkTxnExhausted;
                   refreshedCreatedAt := createdAt tx |} :: store)
   ∨ (∃ i r rt, resp = Resolved rt
                ∧ list_find (λ item, transactionId item = id t) store
                  = Some (i, r)
                ∧ length store' = length store
                ∧ store' !! i =
                    Some {| transactionId := transactionId r;
                            rec_reqChkTxnParams := rt ≫= reqChkTxnParams;
                            rec_isReqChkTxnExhausted :=
                              (rt ≫= txnInfo) ≫= isReqChkTxnExhausted;
                            refreshedCreatedAt := refreshedCreatedAt r |}
                ∧ ∀ j, j ≠ i → store' !! j = store !! j))
  ∧ (length store ≤ length store' ≤ S (length store))%nat
  ∧ (transactionId <$> store' = transactionId <$> store
     ∨ ∃ tx, resp = Resolved (Some tx)
             ∧ transactionId <$> store' = id tx :: (transactionId <$> store))
  ∧ (refreshedCreatedAt <$> store' = refreshedCreatedAt <$> store
     ∨ ∃ tx, refreshedCreatedAt <$> store'
             = createdAt tx :: (refreshedCreatedAt <$> store))
  ∧ ∀ r, r ∈ store → transactionId r ≠ id t → r ∈ store'.
Proof.
  cbv zeta.
  destruct (store_after_cases now store resp t cp1)
    as [-> | [(tx & -> & Hnone & ->) | (i & r & rt & -> & Hfind & ->)]].
  - split; [by left|].
    split; [lia|]. split; [by left|]. split; [by left|]. done.
  - split; [right; left; by exists tx|].
    split; [cbn; lia|]. split; [right; by exists tx|].
    split; [right; by exists tx|]. intros r Hr _. by apply elem_of_cons; right.
  - split.
    { right. right. exists i, r, rt. split; [done|]. split; [done|].
      split; [apply length_alter|]. split.
      - rewrite list_lookup_alter_eq.
        apply list_find_Some in Hfind as (Hlook & _ & _). by rewrite Hlook.
      - intros j Hj. by apply list_lookup_alter_ne. }
    split; [rewrite length_alter; lia|].
    split; [left; apply ids_alter_refresh|]. split.
    { left. clear. revert i.
      induction store as [|r' l IH]; intros [|i]; cbn; [done..|].
      f_equal. apply IH. }
    intros r' Hr' Hid. apply list_find_Some in Hfind as (Hlook & Hmine & _).
    apply list_elem_of_lookup in Hr' as [j Hj].
    apply list_elem_of_lookup. exists j.
    rewrite list_lookup_alter_ne; [done|].
    intros ->. rewrite Hlook in Hj. injection Hj as ->. done.
Qed.

(** A first refresh that writes, and the call after it. *)
Lemma first_refresh_record_found
    (now : Z) (store : list CheckpointRecord) (t : Transaction) (cp1 : Z)
    (tx : Transaction) (payer : PayerInfo) (cur max cp2 : JsNum) :
  truthy (txn_exhausted (Some t)) = false →
  blocked t (now - createdAt t) cp1 = false →
  findIndex (id t) store = None →
  payerInfo tx = Some payer →
  counters (Some tx) = (cur, max, cp2) →
  cur ≠ JNull → max ≠ JNull →
  let store' :=
    store_after store
      (fetchTransactionStatusDetails now store (Resolved (Some tx)) t cp1) in
  store' = recordOf tx :: store
  ∧ findIndex (id t) store' = (if decide (id tx = id t) then Some 0%nat
                               else None)
  ∧ (id tx = id t →
     ∀ now' resp' cp1',
       blocked t (now' - createdAt t) cp1' = false →
       fetchTransactionStatusDetails now' store' resp' t cp1' =
         handleSubsequentRefresh t store' 0 (now' - createdAt t) resp').
Proof.
  intros Hcaller Hgate Hnone Hpayer Hcnt Hcur Hmax store'.
  assert (Hstore : store' = recordOf tx :: store).
  { subst store'. unfold store_after, fetchTransactionStatusDetails.
    rewrite Hcaller, Hgate, Hnone. unfold handleFirstTimeRefresh.
    rewrite Hcnt, Hpayer. destruct cur, max; done. }
  rewrite Hstore. split; [done|].
  assert (Hidx : findIndex (id t) (recordOf tx :: store) =
                 if decide (id tx = id t) then Some 0%nat else None).
  { unfold findIndex in *. cbn [list_find recordOf transactionId].
    destruct (decide (id tx = id t)); [done|].
    destruct (list_find _ store) as [[? ?]|]; [done|done]. }
  split; [done|].
  intros Hid now' resp' cp1' Hgate'. unfold fetchTransactionStatusDetails.
  rewrite Hcaller, Hgate', Hidx. by rewrite decide_True.
Qed.

(** X3. The record a first refresh writes is stored under the id of the
    answer.  When that is the polled id, the next call finds the record at
    the front and is decided by its counters; when it is not, the next
    call still finds nothing for the polled id. *)
Theorem X3_first_refresh_record_is_found
    (now : Z) (store : list CheckpointRecord) (t : Transaction) (cp1 : Z)
    (tx : Transaction) (payer : PayerInfo) (cur max cp2 : JsNum) :
  truthy (txn_exhausted (Some t)) = false →
  blocked t (now - createdAt t) cp1 = false →
  findIndex (id t) store = None →
  payerInfo tx = Some payer →
  counters (Some tx) = (cur, max, cp2) →
  cur ≠ JNull → max ≠ JNull →
  let store' :=
    store_after store
      (fetchTransactionStatusDetails now store (Resolved (Some tx)) t cp1) in
  store' = recordOf tx :: store
  ∧ findIndex (id t) store' = (if decide (id tx = id t) then Some 0%nat
                               else None)
  ∧ (id tx = id t →
     ∀ now' resp' cp1',
       blocked t (now' - createdAt t) cp1' = false →
       fetchTransactionStatusDetails now' store' resp' t cp1' =
         handleSubsequentRefresh t store' 0 (now' - createdAt t) resp').
Proof. apply first_refresh_record_found. Qed.

(** X4. An answer that has payer information and no [reqChkTxnParams] at
    all passes the [!== null] guard, so the first refresh stores a record
    without counters.  From then on every call for that id that passes the
    exhausted check and the first checkpoint fails on destructuring the
    record: the promise rejects with nothing shown, nothing requested and
    nothing written. *)
Theorem X4_record_without_counters_rejects_later_polls
    (now : Z) (store : list CheckpointRecord) (t : Transaction) (cp1 : Z)
    (tx : Transaction) (payer : PayerInfo) :
  truthy (txn_exhausted (Some t)) = false →
  blocked t (now - createdAt t) cp1 = false →
  findIndex (id t) store = None →
  payerInfo tx = Some payer →
  reqChkTxnParams tx = None →
  id tx = id t →
  let o := fetchTransactionStatusDetails now store (Resolved (Some tx)) t cp1 in
  written o = Some (recordOf tx :: store)
  ∧ rejected o = false
  ∧ ∀ now' resp' cp1',
      blocked t (now' - createdAt t) cp1' = false →
      let o' := fetchTransactionStatusDetails now' (store_after store o)
                  resp' t cp1' in
      o' = uncaught
      ∧ rejected o' = true
      ∧ snacks o' = [] ∧ fetched o' = [] ∧ written o' = None
      ∧ refreshes o' = 0%nat.
Proof.
  intros Hcaller Hgate Hnone Hpayer Hparams Hid o.
  assert (Hcnt : counters (Some tx) = (JUndefined, JUndefined, JUndefined))
    by (unfold counters; cbn; by rewrite Hparams).
  destruct (first_refresh_record_found now store t cp1 tx payer
              JUndefined JUndefined JUndefined
              Hcaller Hgate Hnone Hpayer Hcnt) as (Hstore & _ & Hnext);
    [done|done|].
  fold o in Hstore, Hnext. split; [|split].
  - subst o. unfold fetchTransactionStatusDetails.
    rewrite Hcaller, Hgate, Hnone. unfold handleFirstTimeRefresh.
    rewrite Hcnt, Hpayer. done.
  - subst o. unfold fetchTransactionStatusDetails.
    rewrite Hcaller, Hgate, Hnone. unfold handleFirstTimeRefresh.
    rewrite Hcnt, Hpayer. done.
  - intros now' resp' cp1' Hgate' o'.
    assert (Ho' : o' = uncaught).
    { subst o'. rewrite (Hnext Hid) by done.
      rewrite Hstore. unfold handleSubsequentRefresh. cbn.
      by rewrite Hparams. }
    rewrite Ho'. repeat split; reflexivity.
Qed.

(** X5. The list refresh follows the poll's request exactly when the
    answer was handled: [forceUpdate] is called once when a request was
    made and did not end in the [catch] arm, and never otherwise; the call
    then returns the transaction of the answer.  A call that rejects has
    had no effect at all. *)
Theorem X5_list_refresh_follows_handled_answer
    (now : Z) (store : list CheckpointRecord) (resp : FetchResult)
    (t : Transaction) (cp1 : Z) :
  let o := fetchTransactionStatusDetails now store resp t cp1 in
  (refreshes o = 0 ∨ refreshes o = 1)%nat
  ∧ (refreshes o = 1%nat ↔ fetched o = [id t] ∧ o ≠ caught (id t))
  ∧ (refreshes o = 1%nat → ∃ rt, resp = Resolved rt ∧ returned o = rt)
  ∧ (rejected o = true → o = uncaught).
Proof.
  cbv zeta.
  assert (Hsaid : ∀ s,
            (refreshes (said s) = 0 ∨ refreshes (said s) = 1)%nat
            ∧ (refreshes (said s) = 1%nat ↔
                 fetched (said s) = [id t] ∧ said s ≠ caught (id t))
            ∧ (refreshes (said s) = 1%nat →
                 ∃ rt, resp = Resolved rt ∧ returned (said s) = rt)
            ∧ (rejected (said s) = true → said s = uncaught)).
  { intros s. cbn. split; [by left|]. split; [|done].
    split; [done|]. by intros [? _]. }
  assert (Hcaught :
            (refreshes (caught (id t)) = 0 ∨ refreshes (caught (id t)) = 1)%nat
            ∧ (refreshes (caught (id t)) = 1%nat ↔
                 fetched (caught (id t)) = [id t]
                 ∧ caught (id t) ≠ caught (id t))
            ∧ (refreshes (caught (id t)) = 1%nat →
                 ∃ rt, resp = Resolved rt ∧ returned (caught (id t)) = rt)
            ∧ (rejected (caught (id t)) = true → caught (id t) = uncaught)).
  { cbn. split; [by left|]. split; [|done]. split; [done|]. by intros [_ ?]. }
  destruct (truthy (txn_exhausted (Some t))) eqn:Hcaller.
  { unfold fetchTransactionStatusDetails. rewrite Hcaller. apply Hsaid. }
  destruct (blocked t (now - createdAt t) cp1) eqn:Hgate.
  { unfold fetchTransactionStatusDetails. rewrite Hcaller, Hgate.
    apply Hsaid. }
  rewrite poll_by_record by done.
  destruct (list_find _ store) as [[i r]|].
  - destruct (rec_reqChkTxnParams r) as [p|].
    2:{ cbn. split; [by left|]. split; [|done]. split; [done|].
        by intros [? _]. }
    cbv zeta.
    destruct (negb _ && js_seconds_ge _ _).
    { destruct resp as [|rt]; [apply Hcaught|].
      unfold handleAfterCheckpoint2Refresh.
      destruct (counters rt) as [[cur max] cp2]. cbn.
      split; [by right|]. split; [|split; [eauto|done]].
      split; [|done]. intros _. split; [done|]. intros [=]. }
    destruct (negb _ && js_lt _ _).
    { destruct resp as [|rt]; [apply Hcaught|].
      unfold handleWithinCheckpoint2Refresh.
      destruct (counters rt) as [[cur max] cp2]. cbn.
      split; [by right|]. split; [|split; [eauto|done]].
      split; [|done]. intros _. split; [done|]. intros [=]. }
    destruct (truthy (rec_isReqChkTxnExhausted r)); apply Hsaid.
  - destruct resp as [|rt]; [apply Hcaught|].
    unfold handleFirstTimeRefresh. destruct (counters rt) as [[cur max] cp2].
    destruct rt as [tx|]; [|apply Hcaught].
    destruct (payerInfo tx); [|apply Hcaught]. cbn.
    split; [by right|]. split; [|split; [eauto|done]].
    split; [|done]. intros _. split; [done|]. intros [=].
Qed.

Lemma X3_first_refresh_record_is_found_witness :
  findIndex "tx1"
    (store_after []
       (fetchTransactionStatusDetails 130000 []
          (Resolved (Some (answer PENDING None (Some false)
                             (Some (params (JNum 1) (JNum 3) (JNum 7200))))))
          polled 120))
  = Some 0%nat.
Proof.
  apply (X3_first_refresh_record_is_found 130000 [] polled 120
           (answer PENDING None (Some false)
              (Some (params (JNum 1) (JNum 3) (JNum 7200))))
           (payer None) (JNum 1) (JNum 3) (JNum 7200));
    reflexivity || discriminate.
Defined.

Lemma X4_record_without_counters_rejects_later_polls_witness :
  let o := fetchTransactionStatusDetails 130000 []
             (Resolved (Some (answer PENDING None None None))) polled 120 in
  written o = Some [recordOf (answer PENDING None None None)]
  ∧ fetchTransactionStatusDetails 140000 (store_after [] o) Rejected polled 120
    = uncaught.
Proof.
  cbv zeta.
  destruct (X4_record_without_counters_rejects_later_polls 130000 [] polled
              120 (answer PENDING None None None) (payer None)
              eq_refl eq_refl eq_refl eq_refl eq_refl eq_refl)
    as (Hw & _ & Hlater).
  split; [exact Hw|]. apply (Hlater 140000 Rejected 120). reflexivity.
Defined.

End StatusRefreshMore.

(** * Properties of the clock display, the cash-deposit predicates and the
      concern calls *)

Module DisplayFacts.
Import ClockFormat TransactionTypes Complaints.

Lemma day_spec h m :
  (h, m) ∈ day ↔ (0 <= h < 24)%Z ∧ (0 <= m < 60)%Z.
Proof.
  unfold day. rewrite list_elem_of_bind. split.
  - intros (h0 & Hin & Hh). apply list_elem_of_bind in Hin as (m0 & Hin & Hm).
    apply list_elem_of_singleton in Hin as [= -> ->].
    apply elem_of_seqZ in Hh, Hm. lia.
  - intros [Hh Hm]. exists h. split; [|apply elem_of_seqZ; lia].
    apply list_elem_of_bind. exists m. split; [|apply elem_of_seqZ; lia].
    by apply list_elem_of_singleton.
Qed.

Lemma day_displays_differ :
  NoDup ((λ hm, formatTime12Hr hm.1 hm.2) <$> day).
Proof. apply (bool_decide_unpack _). vm_compute. exact I. Qed.

Lemma NoDup_fmap_inj_on {A B} (f : A → B) (l : list A) x y :
  NoDup (f <$> l) → x ∈ l → y ∈ l → f x = f y → x = y.
Proof.
  induction l as [|a l IH]; [by intros _ ?%elem_of_nil|].
  rewrite fmap_cons, NoDup_cons. intros [Hnotin Hnodup] Hx Hy Hf.
  apply elem_of_cons in Hx as [-> | Hx], Hy as [-> | Hy]; [done| | |by apply IH].
  - destruct Hnotin. rewrite Hf. by apply list_elem_of_fmap_2.
  - destruct Hnotin. rewrite <- Hf. by apply list_elem_of_fmap_2.
Qed.

(** X6. Within one day the clock display determines the time: two
    different hour and minute pairs are never shown as the same text (the
    hour is shown as 1 to 12, midnight and noon both as 12, and the AM or
    PM mark and the zero-padded minutes keep them apart). *)
Theorem X6_formatTime12Hr_determines_time (h m h' m' : Z) :
  (0 <= h < 24)%Z → (0 <= m < 60)%Z →
  (0 <= h' < 24)%Z → (0 <= m' < 60)%Z →
  formatTime12Hr h m = formatTime12Hr h' m' →
  h = h' ∧ m = m'.
Proof.
  intros Hh Hm Hh' Hm' Heq.
  assert (H : (h, m) = (h', m')); [|by injection H].
  apply (NoDup_fmap_inj_on (λ hm, formatTime12Hr hm.1 hm.2) day);
    [apply day_displays_differ | by apply day_spec | by apply day_spec | done].
Qed.

Lemma X6_formatTime12Hr_determines_time_witness :
  formatTime12Hr 0 5 = "12:05 AM" ∧ formatTime12Hr 13 7 = "1:07 PM"
  ∧ (13 = 13 ∧ 7 = 7)%Z.
Proof.
  split; [vm_compute; reflexivity|]. split; [vm_compute; reflexivity|].
  apply (X6_formatTime12Hr_determines_time 13 7 13 7); (lia || reflexivity).
Defined.

(** X7. The four cash-deposit predicates.  The one that hides a
    transaction from the lists holds only for pending transactions and
    excludes the three display classes; "cash deposit" excludes "request
    generated" and "cash received"; and a transaction with a send purpose,
    a boolean [selfInitiated] and [isICDRequested === false] falls in
    exactly one of hidden, "cash deposit" and "cash received". *)
Theorem X7_cash_deposit_predicates (t : Transaction) :
  (TransactionsManager.isICDCashDepositPendingTransaction t = true →
   status t = PENDING
   ∧ isICDRequestGeneratedTransaction t = false
   ∧ isICDCashDepositTransaction t = false
   ∧ isICDCashReceivedTransaction t = false)
  ∧ (isICDCashDepositTransaction t = true →
     isICDRequestGeneratedTransaction t = false
     ∧ isICDCashReceivedTransaction t = false)
  ∧ (isSendPurpose t = true →
     (txnInfo t ≫= isICDRequested) = Some false →
     is_Some (selfInitiated t) →
     let classes :=
       (TransactionsManager.isICDCashDepositPendingTransaction t,
        isICDCashDepositTransaction t, isICDCashReceivedTransaction t) in
     classes = (true, false, false) ∨ classes = (false, true, false)
     ∨ classes = (false, false, true)).
Proof.
  unfold TransactionsManager.isICDCashDepositPendingTransaction,
    isICDRequestGeneratedTransaction, isICDCashDepositTransaction,
    isICDCashReceivedTransaction, isSendPurpose.
  destruct (txnInfo t ≫= isICDRequested) as [[|]|];
    destruct (selfInitiated t) as [[|]|];
    destruct (bool_decide (status t = PENDING)) eqn:Hs;
    destruct (bool_decide (purpose t = Some SEND_TO_SELF));
    destruct (bool_decide (purpose t = Some SEND_TO_OTHER));
    try apply bool_decide_eq_true in Hs;
    repeat split; intros; cbn in *; try done;
    try (by destruct H1 as [? ?]); auto;
    try (match goal with H : is_Some None |- _ => by destruct H end).
Qed.

Lemma X7_cash_deposit_predicates_witness :
  isICDCashDepositTransaction Samples.icdPending = false
  ∧ TransactionsManager.isICDCashDepositPendingTransaction Samples.icdPending
    = true.
Proof.
  destruct (X7_cash_deposit_predicates Samples.icdPending) as (H & _ & _).
  destruct (H eq_refl) as (_ & _ & Hd & _). split; [exact Hd|reflexivity].
Defined.

(** X8. The two concern calls treat a failed reply differently.  A reply
    the transport resolved without [error] fulfils both calls.  A failed
    reply (the value of a rejected call, or a resolved reply carrying
    [error]) that has a non-empty [userMessage] makes [raiseConcern] reject
    with that message and [getQueryApi] fulfil with the failed reply
    itself; a failed reply without one makes both reject with the
    network-error message.  So [raiseConcern] fulfils only with a reply
    free of [error], its rejection message is never empty, and
    [getQueryApi] rejects only with the network-error message. *)
Theorem X8_concern_calls (tr : Transport) :
  (∀ v, tr = TransportResolves v → reply_error v = false →
        raiseConcern tr = Fulfilled v ∧ getQueryApi tr = Fulfilled v)
  ∧ (∀ err,
       tr = TransportRejects err
       ∨ (tr = TransportResolves err ∧ reply_error err = true) →
       match reply_userMessage err with
       | Some m =>
         if decide (m = "") then
           raiseConcern tr = RejectedWith "Network error occurred"
           ∧ getQueryApi tr = RejectedWith "Network error occurred"
         else
           raiseConcern tr = RejectedWith m ∧ getQueryApi tr = Fulfilled err
       | None =>
         raiseConcern tr = RejectedWith "Network error occurred"
         ∧ getQueryApi tr = RejectedWith "Network error occurred"
       end)
  ∧ (∀ v, raiseConcern tr = Fulfilled v →
          tr = TransportResolves v ∧ reply_error v = false
          ∧ getQueryApi tr = Fulfilled v)
  ∧ (∀ m, raiseConcern tr = RejectedWith m →
          m ≠ ""
          ∧ (getQueryApi tr = RejectedWith "Network error occurred"
             ∨ ∃ err, getQueryApi tr = Fulfilled err
                      ∧ reply_userMessage err = Some m))
  ∧ (∀ m, getQueryApi tr = RejectedWith m → m = "Network error occurred").
Proof.
  split; [|split].
  { intros v -> Hv. unfold raiseConcern, getQueryApi, validateResponse.
    by rewrite Hv. }
  { intros err Hfailed.
    assert (Hval : validateResponse tr = inr err).
    { destruct Hfailed as [-> | [-> He]]; cbn; [done|]. by rewrite He. }
    unfold raiseConcern, getQueryApi. rewrite Hval. unfold spoken.
    destruct (reply_userMessage err) as [m|]; [|done].
    destruct (decide (m = "")) as [-> | Hne].
    - by rewrite bool_decide_eq_true_2.
    - by rewrite bool_decide_eq_false_2. }
  unfold raiseConcern, getQueryApi, validateResponse, spoken.
  destruct tr as [err | response].
  - destruct (reply_userMessage err) as [m|] eqn:Hm.
    + case_bool_decide as Hempty.
      * split; [done|]. split; [|by intros ? [= <-]].
        intros ? [= <-]. split; [done|by left].
      * split; [done|]. split; [|done].
        intros ? [= <-]. split; [done|]. right. by exists err.
    + split; [done|]. split; [|by intros ? [= <-]].
      intros ? [= <-]. split; [done|by left].
  - destruct (reply_error response) eqn:He.
    + destruct (reply_userMessage response) as [m|] eqn:Hm.
      * case_bool_decide as Hempty.
        -- split; [done|]. split; [|by intros ? [= <-]].
           intros ? [= <-]. split; [done|by left].
        -- split; [done|]. split; [|done].
           intros ? [= <-]. split; [done|]. right. by exists response.
      * split; [done|]. split; [|by intros ? [= <-]].
        intros ? [= <-]. split; [done|by left].
    + split; [|done]. intros v [= <-]. done.
Qed.

Lemma X8_concern_calls_witness :
  let failed := {| reply_error := true;
                   reply_userMessage := Some "Already raised" |} in
  raiseConcern (TransportResolves failed) = RejectedWith "Already raised"
  ∧ getQueryApi (TransportResolves failed) = Fulfilled failed
  ∧ getQueryApi (TransportRejects {| reply_error := false;
                                     reply_userMessage := None |})
    = RejectedWith "Network error occurred".
Proof.
  cbv zeta.
  destruct (X8_concern_calls
              (TransportResolves
                 {| reply_error := true;
                    reply_userMessage := Some "Already raised" |}))
    as (_ & Hfailed & _).
  destruct (X8_concern_calls
              (TransportRejects
                 {| reply_error := false; reply_userMessage := None |}))
    as (_ & Hrejected & _).
  split; [|split].
  - exact (proj1 (Hfailed _ (or_intror (conj eq_refl eq_refl)))).
  - exact (proj2 (Hfailed _ (or_intror (conj eq_refl eq_refl)))).
  - exact (proj2 (Hrejected _ (or_introl eq_refl))).
Defined.

End DisplayFacts.

(** * Properties of the list cache over whole sessions *)

Module SessionFacts.
Import TransactionsManager Session Samples TransactionsManagerFacts.

Local Abbreviation hidden := isICDCashDepositPendingTransaction.

Lemma kept_ok page : Forall (λ t, hidden t = false) (kept page).
Proof.
  unfold kept. apply Forall_forall. intros t Ht.
  apply list_elem_of_In, filter_In in Ht as [_ Hk].
  unfold keep in Hk. by apply negb_true_iff in Hk.
Qed.

Lemma page_ok_not_page m :
  Maybe_data m = None → page_ok (Some m).
Proof. intros H d [= ->]. done. Qed.

(** *** The invariant is kept by every building block *)

Lemma Inv_initial : Inv initial.
Proof.
  split; cbn; try done; try (by exists 0%nat); by constructor.
Qed.

Lemma Inv_setOffset f st :
  Inv st → (∀ z, (∃ k : nat, z = pageSize * Z.of_nat k) →
                 ∃ k : nat, f z = pageSize * Z.of_nat k) →
  Inv (setOffset f st).
Proof. intros [] Hf. split; cbn; auto. Qed.

Lemma Inv_resetOffset st : Inv st → Inv (resetOffset st).
Proof. intros H. apply Inv_setOffset; [done|]. intros _ _. by exists 0%nat. Qed.

Lemma Inv_incrementOffset st : Inv st → Inv (incrementOffset pageSize st).
Proof.
  intros H. apply Inv_setOffset; [done|]. intros z [k ->]. exists (S k). lia.
Qed.

Lemma Inv_setFilter f st : Inv st → Inv (setFilter f st).
Proof. intros []. split; cbn; auto. Qed.

Lemma Inv_setDateMode d st : Inv st → Inv (setDateMode d st).
Proof. intros []. split; cbn; auto. Qed.

Lemma Inv_updateLastUpdated now st : Inv st → Inv (updateLastUpdated now st).
Proof. intros []. split; cbn; auto. Qed.

Lemma Inv_clearErrorState st : Inv st → Inv (setErrorState false st).
Proof. intros []. split; cbn; auto. Qed.

Lemma Inv_setPaymentSubscriptionRef s st :
  Inv st → Inv (setPaymentSubscriptionRef s st).
Proof. intros []. split; cbn; auto. Qed.

Lemma Inv_setInflight l st :
  Inv st → Forall pending_ok l → Inv (setInflight l st).
Proof. intros [] Hl. split; cbn; auto. Qed.

Lemma Inv_setObservableRef c m st :
  Inv st → page_ok m → Inv (setObservableRef c m st).
Proof. intros [] Hm. split; cbn; auto; destruct c; auto. Qed.

Lemma Inv_next c m st : Inv st → page_ok (Some m) → Inv (next c m st).
Proof.
  intros H Hm. unfold next. destruct (observableRef c st); [|done].
  by apply Inv_setObservableRef.
Qed.

Lemma Inv_getTransactions c f (n : nat) k st :
  Inv st → pending_ok k →
  Inv (getTransactions c f pageSize (pageSize * Z.of_nat n) k st).
Proof.
  intros [] Hk. split; cbn; auto.
  - apply Forall_app. split; [done|]. apply Forall_singleton.
    split; [done|]. split; [by exists n|]. cbn. by intros ->.
  - apply Forall_app. split; [done|]. by apply Forall_singleton.
Qed.

Lemma Inv_observableRef c st : Inv st → page_ok (observableRef c st).
Proof. intros []. by destruct c. Qed.

Lemma Inv_forceUpdateOf c r now st : Inv st → Inv (forceUpdateOf c r now st).
Proof.
  intros H. unfold forceUpdateOf.
  apply (Inv_getTransactions c _ 0%nat); [|done].
  set (st0 := setErrorState false _).
  assert (H0 : Inv st0)
    by (by apply Inv_clearErrorState, Inv_updateLastUpdated, Inv_resetOffset).
  destruct (observableRef c st0).
  - apply Inv_next; [done|]. intros d [= <-]. cbn. constructor.
  - apply Inv_setObservableRef; [done|]. by apply page_ok_not_page.
Qed.

Lemma Inv_fetchMoreOf c st : Inv st → Inv (fetchMoreOf c (render st) st).
Proof.
  intros H. unfold fetchMoreOf. destruct (_ && _); [|done].
  pose proof (Inv_incrementOffset st H) as H1.
  destruct (observableRef c (incrementOffset pageSize st) ≫= Maybe_data)
    as [d|] eqn:Hd.
  - destruct (inv_offset st H) as [k Hk]. cbn [render r_offset].
    replace (offset st + pageSize)%Z with (pageSize * Z.of_nat (S k))%Z by lia.
    apply Inv_getTransactions; [done|]. split; [|by exists (S k)].
    apply (Inv_observableRef c _ H1).
    destruct (observableRef c _) as [[| |]|]; by simplify_eq/=.
  - apply Inv_next; [done|]. by apply page_ok_not_page.
Qed.

Lemma page_ok_app existing page m :
  Forall (λ t, hidden t = false) existing →
  (∀ d, m = Maybe_of d → transactions d = existing ++ kept page) →
  page_ok (Some m).
Proof.
  intros He Hm d [= ->]. rewrite (Hm d eq_refl).
  apply Forall_app. split; [done|apply kept_ok].
Qed.

Lemma Inv_settle k s st : Inv st → pending_ok k → Inv (settle k s st).
Proof.
  intros H Hk. destruct k as [c lu | c existing off lu], s as [err | res];
    cbn [settle].
  - unfold onError. apply Inv_next; [done|]. by apply page_ok_not_page.
  - unfold onSuccess. destruct (resp_error res).
    + apply Inv_next; [done|]. by apply page_ok_not_page.
    + apply Inv_next; [done|]. apply (page_ok_app [] res); [done|].
      by intros d [= <-].
  - apply Inv_next; [done|]. by apply page_ok_not_page.
  - destruct (resp_error res).
    + apply Inv_next; [done|]. by apply page_ok_not_page.
    + apply Inv_next; [done|]. destruct Hk as [Hk _].
      apply (page_ok_app existing res); [done|]. by intros d [= <-].
Qed.

Lemma Inv_deliver i s st : Inv st → Inv (deliver i s st).
Proof.
  intros H. unfold deliver. destruct (inflight st !! i) as [k|] eqn:Hk; [|done].
  apply Inv_settle.
  - apply Inv_setInflight; [done|]. apply Forall_delete, (inv_inflight st H).
  - by apply (Forall_lookup_1 _ _ _ _ (inv_inflight st H) Hk).
Qed.

Lemma Inv_step st op : Inv st → Inv (step st op).
Proof.
  intros H.
  destruct op as [c now | c r now | c now | c | i s | ch now | | c | | a now];
    cbn [step].
  - by apply Inv_forceUpdateOf.
  - by apply Inv_forceUpdateOf.
  - unfold fetchListOf, fetchCircleTransactionList, fetchTransactionsList.
    destruct c; case_branches; try done; by apply Inv_forceUpdateOf.
  - by apply Inv_fetchMoreOf.
  - by apply Inv_deliver.
  - unfold changeFilter.
    destruct ch; cbn zeta;
      unfold applyFilter, applyDateMode, clearFilter, clearDateMode,
        clearFilterWithUpdate, filterforupiId, upiLitefilter, forceUpdate;
      apply Inv_forceUpdateOf;
      repeat (apply Inv_setFilter || apply Inv_setDateMode); done.
  - by apply Inv_setFilter.
  - unfold initializeObservableOf. destruct (observableRef c st); [done|].
    apply Inv_setObservableRef; [done|]. by apply page_ok_not_page.
  - by apply Inv_setPaymentSubscriptionRef.
  - unfold emit. destruct (paymentSubscriptionRef st); [|done].
    destruct (recognized a); [|done]. by apply Inv_forceUpdateOf.
Qed.

Lemma Inv_run ops : Inv (run ops).
Proof.
  unfold run. generalize Inv_initial. generalize initial.
  induction ops as [|op ops IH]; intros st H; [done|].
  cbn. apply IH. by apply Inv_step.
Qed.

(** X9. Whatever the user interface calls and in whatever order the
    fetches settle, every request that reaches the transport asks for 20
    items at an offset that is a non-negative multiple of 20, and a request
    for the circle list carries the circle marker as its only filter. *)
Theorem X9_every_request_is_a_page_request (ops : list Op) :
  Forall (λ rq, limit rq = 20%Z
                ∧ (0 <= req_offset rq)%Z
                ∧ (req_offset rq `mod` 20 = 0)%Z
                ∧ (upiCircleTransactions rq = true →
                   requestFilter rq = {[ "upiCircle" := "Y" ]}))
         (requests (run ops)).
Proof.
  eapply Forall_impl; [apply (inv_requests _ (Inv_run ops))|].
  intros rq (Hl & [k Hk] & Hc). unfold pageSize in *.
  split; [done|]. split; [lia|]. split; [|done].
  rewrite Hk, Z.mul_comm. apply Z.mod_mul. lia.
Qed.


(** X11. No call and no settlement ever raises the error flag, a failed
    fetch included.  So at every point of a session a list is due for
    refresh exactly when its observable has not been created or the shared
    refresh instant is missing or 30 minutes old. *)
Theorem X11_error_flag_is_never_raised (ops : list Op) (c : bool) (now : Z) :
  let st := run ops in
  errorOccuredDuringLastUpdate st = false
  ∧ shouldUpdateOf c (render st) now st =
      negb (bool_decide (is_Some (observableRef c st)))
      || hasExpired (render st) now.
Proof.
  cbv zeta. pose proof (inv_flag _ (Inv_run ops)) as Hflag.
  split; [done|].
  unfold shouldUpdateOf, shouldUpdateCircleHistory, shouldUpdate.
  cbn [render r_errorOccuredDuringLastUpdate]. rewrite Hflag.
  destruct c; cbn [observableRef]; by rewrite orb_false_r.
Qed.

(** *** Effects of a call together with its own settlement *)

(** What a settled continuation publishes. *)
Lemma settle_is_next k s st :
  ∃ c m, settle k s st = next c m st
         ∧ c = match k with AwaitForce c _ | AwaitMore c _ _ _ => c end
         ∧ m = match k, s with
               | AwaitForce _ lu, Resolves res =>
                 if resp_error res then
                   Maybe_error (createError (userMessage res))
                 else
                   Maybe_of (paginate (with_transactions res (kept res)) 0 lu)
               | AwaitForce _ _, Rejects err => Maybe_error (createError err)
               | AwaitMore c existing off lu, Resolves res =>
                 if resp_error res then
                   Maybe_error (default "" (userMessage res))
                 else
                   Maybe_of
                     {| hasNext := hasNextPage (txnsCount res) off;
                        transactions := existing ++ kept res;
                        count := txnsCount res;
                        fetchedTimestamp := lu;
                        showShimmer := false;
                        totalCbAmount :=
                          if c then None else resp_totalCbAmount res;
                        reqChkTxnCheckPoint1 := None |}
               | AwaitMore c _ _ _, Rejects _ =>
                 Maybe_error (failedToFetchMore c)
               end.
Proof.
  destruct k as [c lu | c existing off lu], s as [err | res]; cbn [settle];
    unfold onError, onSuccess; try (destruct (resp_error res));
    eexists _, _; (split; [reflexivity|]); done.
Qed.

(** [next] writes one observable and nothing else. *)
Lemma next_effects c m st :
  is_Some (observableRef c st) →
  let st' := next c m st in
  observableRef c st' = Some m
  ∧ observableRef (negb c) st' = observableRef (negb c) st
  ∧ offset st' = offset st
  ∧ filter st' = filter st
  ∧ dateMode st' = dateMode st
  ∧ lastUpdated st' = lastUpdated st
  ∧ errorOccuredDuringLastUpdate st' = errorOccuredDuringLastUpdate st
  ∧ requests st' = requests st
  ∧ inflight st' = inflight st.
Proof.
  intros [v Hv]. unfold next. rewrite Hv. destruct c; cbn; done.
Qed.

Lemma forceUpdateOf_frame c r now st :
  let st' := forceUpdateOf c r now st in
  observableRef (negb c) st' = observableRef (negb c) st
  ∧ is_Some (observableRef c st')
  ∧ lastUpdated st' = Some now.
Proof.
  unfold forceUpdateOf, next.
  replace (observableRef c (setErrorState false
             (updateLastUpdated now (resetOffset st))))
    with (observableRef c st) by (by destruct c).
  destruct (observableRef c st) eqn:E; destruct c; cbn in *; rewrite ?E; eauto.
Qed.

(** A forced refresh and its settlement, whatever the settlement is. *)
Lemma refreshedOf_effects c now s st :
  let st' := refreshedOf c now s st in
  observableRef c st' =
    Some match s with
         | Rejects err => Maybe_error (createError err)
         | Resolves res =>
           if resp_error res then Maybe_error (createError (userMessage res))
           else Maybe_of (paginate (with_transactions res (kept res)) 0
                                   (lastUpdated st))
         end
  ∧ observableRef (negb c) st' = observableRef (negb c) st
  ∧ offset st' = 0%Z
  ∧ filter st' = filter st
  ∧ lastUpdated st' = Some now
  ∧ errorOccuredDuringLastUpdate st' = false
  ∧ requests st' = requests st ++ [pageRequest c (filter st) 0]
  ∧ inflight st' = inflight st.
Proof.
  cbv zeta. unfold refreshedOf.
  destruct (forceUpdateOf_effects c (render st) now st)
    as (Ho & Hf & _ & He & Hr & Hi & _).
  destruct (forceUpdateOf_frame c (render st) now st) as (Hother & Hsome & Hlu).
  set (st1 := forceUpdateOf c (render st) now st) in *.
  unfold deliver. rewrite Hi, lookup_app_r by lia.
  rewrite Nat.sub_diag. cbn [lookup list_lookup].
  replace (delete (length (inflight st))
             (inflight st ++ [AwaitForce c (r_lastUpdated (render st))]))
    with (inflight st).
  2:{ generalize (inflight st). intros l.
      induction l as [|x l IH]; [done|]. simpl. f_equal. exact IH. }
  set (st2 := setInflight (inflight st) st1).
  assert (Hsome2 : is_Some (observableRef c st2))
    by (destruct Hsome as [v Hv]; exists v; rewrite <- Hv; by destruct c).
  destruct (settle_is_next (AwaitForce c (r_lastUpdated (render st))) s st2)
    as (c' & m & -> & -> & ->).
  destruct (next_effects c
              match s with
              | Rejects err => Maybe_error (createError err)
              | Resolves res =>
                if resp_error res
                then Maybe_error (createError (userMessage res))
                else Maybe_of (paginate (with_transactions res (kept res)) 0
                                        (r_lastUpdated (render st)))
              end st2 Hsome2)
    as (H1 & H2 & H3 & H4 & _ & H6 & H7 & H8 & H9).
  rewrite H1, H2, H3, H4, H6, H7, H8, H9.
  subst st2. split; [done|]. split; [rewrite <- Hother; by destruct c|].
  cbn [setInflight offset filter lastUpdated errorOccuredDuringLastUpdate
       requests inflight].
  rewrite Ho, Hf, Hlu, He, Hr. repeat split; reflexivity.
Qed.

(** X12. Each list's observable is written only by that list's own calls:
    a forced refresh or a load-more of one list, together with its
    settlement, leaves the other list's published value as it was. *)
Theorem X12_lists_publish_independently
    (c : bool) (now : Z) (s : Settlement) (st : TransactionsManager.State) :
  observableRef (negb c) (refreshedOf c now s st) = observableRef (negb c) st
  ∧ observableRef (negb c) (loadedMoreOf c s st) = observableRef (negb c) st.
Proof.
  split; [apply refreshedOf_effects|].
  unfold loadedMoreOf, fetchMoreOf. destruct (_ && _).
  - set (st1 := incrementOffset pageSize st).
    assert (Href : ∀ b, observableRef b st1 = observableRef b st)
      by (by intros []).
    destruct (observableRef c st1 ≫= Maybe_data) as [d|] eqn:Hd.
    + pose proof (deliver_issued c (if c then ∅ else r_filter (render st))
        pageSize (r_offset (render st) + pageSize)
        (AwaitMore c (transactions d) (r_offset (render st) + pageSize)
                   (r_lastUpdated (render st))) s st1) as Hdel.
      change (inflight st1) with (inflight st) in Hdel. rewrite Hdel.
      destruct (settle_is_next
                  (AwaitMore c (transactions d)
                     (r_offset (render st) + pageSize)
                     (r_lastUpdated (render st))) s
                  (setInflight (inflight st)
                     (getTransactions c (if c then ∅ else r_filter (render st))
                        pageSize (r_offset (render st) + pageSize)
                        (AwaitMore c (transactions d)
                           (r_offset (render st) + pageSize)
                           (r_lastUpdated (render st))) st1)))
        as (c' & m & -> & -> & _).
      unfold next. destruct (observableRef c _); [|rewrite <- Href];
        by destruct c.
    + unfold deliver, next.
      destruct (observableRef c st1) eqn:E.
      * assert (Hin : inflight (setObservableRef c
                         (Some (Maybe_error (failedToFetchMore c))) st1)
                      = inflight st) by (by destruct c).
        rewrite Hin, lookup_ge_None_2 by lia. rewrite <- Href. by destruct c.
      * change (inflight st1) with (inflight st).
        rewrite lookup_ge_None_2 by lia. apply Href.
  - unfold deliver. rewrite lookup_ge_None_2 by lia. done.
Qed.

Lemma deliver_at l1 k l2 s st :
  inflight st = l1 ++ k :: l2 →
  deliver (length l1) s st = settle k s (setInflight (l1 ++ l2) st).
Proof.
  intros Hin. unfold deliver. rewrite Hin.
  rewrite lookup_app_r by lia. rewrite Nat.sub_diag. cbn [lookup list_lookup].
  do 2 f_equal. clear. induction l1 as [|x l1 IH]; [done|].
  simpl. f_equal. exact IH.
Qed.

Lemma fetchMoreOf_issued c st d :
  errorOccuredDuringLastUpdate st = false →
  cached c st = Some d →
  fetchMoreOf c (render st) st =
    getTransactions c (if c then ∅ else filter st) pageSize
      (offset st + pageSize)
      (AwaitMore c (transactions d) (offset st + pageSize) (lastUpdated st))
      (incrementOffset pageSize st).
Proof.
  intros He Hc. apply cached_Some in Hc. unfold fetchMoreOf.
  cbn [render r_errorOccuredDuringLastUpdate r_offset r_filter r_lastUpdated].
  rewrite He, Hc, bool_decide_eq_true_2 by eauto. cbn [negb andb].
  replace (observableRef c (incrementOffset pageSize st))
    with (Some (Maybe_of d)) by (rewrite <- Hc; by destruct c).
  done.
Qed.

(** A load-more and its settlement on a list that holds a page. *)
Lemma loadedMoreOf_effects c s st d :
  errorOccuredDuringLastUpdate st = false →
  cached c st = Some d →
  let st' := loadedMoreOf c s st in
  observableRef c st' =
    Some (moreResult c (transactions d) (offset st + pageSize)
                     (lastUpdated st) s)
  ∧ offset st' = (offset st + pageSize)%Z
  ∧ errorOccuredDuringLastUpdate st' = false
  ∧ filter st' = filter st
  ∧ inflight st' = inflight st
  ∧ requests st' =
      requests st ++ [pageRequest c (filter st) (offset st + pageSize)].
Proof.
  intros He Hc. cbv zeta. unfold loadedMoreOf.
  rewrite (fetchMoreOf_issued c st d He Hc).
  apply cached_Some in Hc.
  pose proof (deliver_issued c (if c then ∅ else filter st) pageSize
    (offset st + pageSize)
    (AwaitMore c (transactions d) (offset st + pageSize) (lastUpdated st))
    s (incrementOffset pageSize st)) as Hd.
  cbn [inflight incrementOffset setOffset] in Hd. rewrite Hd. clear Hd.
  set (st1 := setInflight _ _).
  assert (Href : is_Some (observableRef c st1))
    by (exists (Maybe_of d); rewrite <- Hc; by destruct c).
  assert (Hs : settle (AwaitMore c (transactions d) (offset st + pageSize)
                                 (lastUpdated st)) s st1
               = next c (moreResult c (transactions d) (offset st + pageSize)
                                    (lastUpdated st) s) st1).
  { destruct s as [err | res]; cbn [settle moreResult]; [done|].
    by destruct (resp_error res). }
  rewrite Hs.
  destruct (next_effects c
              (moreResult c (transactions d) (offset st + pageSize)
                          (lastUpdated st) s) st1 Href)
    as (H1 & _ & H3 & H4 & _ & _ & H7 & H8 & H9).
  rewrite H1, H3, H4, H7, H8, H9. split; [done|].
  subst st1. cbn. rewrite He. repeat split. by destruct c.
Qed.

(** X13. The two lists share one offset.  A forced refresh of one list
    returns it to 0, so the next load-more of the other list asks for the
    page at offset 20, however many pages that list already holds, and
    appends what it gets to them. *)
Theorem X13_refresh_of_one_list_rewinds_the_other
    (c : bool) (st : TransactionsManager.State) (d : PaginatedTransactions)
    (now : Z) (s : Settlement) (page : ListResponse) :
  errorOccuredDuringLastUpdate st = false →
  cached c st = Some d →
  resp_error page = false →
  let st1 := refreshedOf (negb c) now s st in
  let st2 := loadedMoreOf c (Resolves page) st1 in
  offset st1 = 0%Z
  ∧ cached c st1 = Some d
  ∧ requests st2 =
      requests st ++ [pageRequest (negb c) (filter st) 0;
                      pageRequest c (filter st) pageSize]
  ∧ ∃ d2, cached c st2 = Some d2
          ∧ transactions d2 = transactions d ++ kept page.
Proof.
  intros He Hc Hpage st1 st2.
  destruct (refreshedOf_effects (negb c) now s st)
    as (_ & Hother & Ho & Hf & _ & He1 & Hr & _).
  fold st1 in Hother, Ho, Hf, He1, Hr. rewrite negb_involutive in Hother.
  assert (Hc1 : cached c st1 = Some d) by (unfold cached; by rewrite Hother).
  destruct (loadedMoreOf_resolved c page st1 d He1 Hc1 Hpage)
    as ((d2 & Hc2 & Ht2 & _) & _ & _ & _ & _ & Hr2).
  fold st2 in Hc2, Hr2. split; [done|]. split; [done|]. split.
  - rewrite Hr2, Hr, Ho, Hf, <- app_assoc. done.
  - by exists d2.
Qed.

Lemma X13_refresh_of_one_list_rewinds_the_other_witness :
  let st := loadedMoreAll false [page1; page1] mainLoaded in
  offset st = 40%Z
  ∧ requests (loadedMoreOf false (Resolves page2)
                (refreshedOf true 9000 (Resolves page1) st))
    = requests st ++ [pageRequest true ∅ 0; pageRequest false ∅ 20].
Proof.
  cbv zeta. split; [reflexivity|].
  destruct (X13_refresh_of_one_list_rewinds_the_other false
              (loadedMoreAll false [page1; page1] mainLoaded)
              {| transactions :=
                   [txn "t1" SUCCESS; txn "t2" PENDING; txn "t3" SUCCESS;
                    txn "t3" SUCCESS];
                 count := 45; hasNext := false; fetchedTimestamp := Some 0;
                 showShimmer := false; totalCbAmount := None;
                 reqChkTxnCheckPoint1 := None |}
              9000 (Resolves page1) page2 eq_refl eq_refl eq_refl)
    as (_ & _ & Hr & _).
  exact Hr.
Defined.

(** X14. The list getter fetches a due list once and then leaves it alone
    for half an hour: the call on a due list sends the first-page request;
    a further call less than 30 minutes later changes nothing at all,
    whatever has been published meanwhile by the first request; a call
    from 30 minutes on sends the first-page request again. *)
Theorem X14_getter_fetches_once_per_half_hour
    (c : bool) (st : TransactionsManager.State) (now now' : Z) :
  shouldUpdateOf c (render st) now st = true →
  let st1 := fetchListOf c (render st) now st in
  requests st1 = requests st ++ [pageRequest c (filter st) 0]
  ∧ ((now' - now < 1800000)%Z →
     fetchListOf c (render st1) now' st1 = st1
     ∧ ∀ s, let st2 := deliver (length (inflight st)) s st1 in
            fetchListOf c (render st2) now' st2 = st2)
  ∧ ((now' - now >= 1800000)%Z →
     requests (fetchListOf c (render st1) now' st1) =
       requests st1 ++ [pageRequest c (filter st) 0]).
Proof.
  intros Hdue st1.
  assert (Hst1 : st1 = forceUpdateOf c (render st) now st).
  { subst st1. unfold fetchListOf, fetchCircleTransactionList,
      fetchTransactionsList, shouldUpdateOf in *.
    destruct c; by rewrite Hdue. }
  destruct (forceUpdateOf_effects c (render st) now st)
    as (_ & Hf & _ & He & Hr & Hi & _).
  destruct (forceUpdateOf_frame c (render st) now st) as (_ & Hsome & Hlu).
  rewrite <- Hst1 in Hf, He, Hr, Hi, Hsome, Hlu.
  assert (Hlist : ∀ st2,
            errorOccuredDuringLastUpdate st2 = false →
            lastUpdated st2 = Some now →
            is_Some (observableRef c st2) →
            shouldUpdateOf c (render st2) now' st2
            = (1800000 <=? now' - now)%Z).
  { intros st2 He2 Hlu2 Hsome2.
    unfold shouldUpdateOf, shouldUpdateCircleHistory, shouldUpdate, hasExpired.
    cbn [render r_errorOccuredDuringLastUpdate r_lastUpdated].
    rewrite He2, Hlu2. destruct c; cbn [observableRef] in Hsome2;
      rewrite bool_decide_eq_true_2 by done; done. }
  assert (Hget : ∀ st2,
            shouldUpdateOf c (render st2) now' st2 = false →
            fetchListOf c (render st2) now' st2 = st2).
  { intros st2 H2. unfold fetchListOf, fetchCircleTransactionList,
      fetchTransactionsList, shouldUpdateOf in *. destruct c; by rewrite H2. }
  split; [done|]. split.
  - intros Hsoon.
    assert (Hno : (1800000 <=? now' - now)%Z = false) by (apply Z.leb_gt; lia).
    split.
    + apply Hget. by rewrite Hlist.
    + intros s st2. apply Hget. rewrite Hlist; [done|..]; subst st2.
      * unfold deliver. rewrite Hi, lookup_app_r by lia.
        rewrite Nat.sub_diag. cbn [lookup list_lookup].
        destruct (settle_is_next (AwaitForce c (r_lastUpdated (render st))) s
                    (setInflight
                       (delete (length (inflight st))
                          (inflight st ++
                           [AwaitForce c (r_lastUpdated (render st))])) st1))
          as (c' & m & -> & _ & _).
        unfold next. destruct (observableRef c' _); destruct c'; done.
      * unfold deliver. rewrite Hi, lookup_app_r by lia.
        rewrite Nat.sub_diag. cbn [lookup list_lookup].
        destruct (settle_is_next (AwaitForce c (r_lastUpdated (render st))) s
                    (setInflight
                       (delete (length (inflight st))
                          (inflight st ++
                           [AwaitForce c (r_lastUpdated (render st))])) st1))
          as (c' & m & -> & _ & _).
        unfold next. destruct (observableRef c' _); destruct c'; done.
      * unfold deliver. rewrite Hi, lookup_app_r by lia.
        rewrite Nat.sub_diag. cbn [lookup list_lookup].
        destruct (settle_is_next (AwaitForce c (r_lastUpdated (render st))) s
                    (setInflight
                       (delete (length (inflight st))
                          (inflight st ++
                           [AwaitForce c (r_lastUpdated (render st))])) st1))
          as (c' & m & -> & -> & _).
        set (st3 := setInflight _ st1).
        assert (H3 : is_Some (observableRef c st3))
          by (destruct Hsome as [v Hv]; exists v; rewrite <- Hv; by destruct c).
        rewrite (proj1 (next_effects c m st3 H3)). eauto.
  - intros Hlate.
    assert (Hyes : shouldUpdateOf c (render st1) now' st1 = true)
      by (rewrite Hlist by done; apply Z.leb_le; lia).
    unfold fetchListOf, fetchCircleTransactionList, fetchTransactionsList,
      shouldUpdateOf in *.
    destruct (forceUpdateOf_effects c (render st1) now' st1)
      as (_ & _ & _ & _ & Hr' & _).
    cbn [render r_filter] in Hr'. rewrite Hf in Hr'.
    destruct c; rewrite Hyes; exact Hr'.
Qed.

Lemma X14_getter_fetches_once_per_half_hour_witness :
  requests (fetchListOf false (render initial) 0 initial)
    = [pageRequest false ∅ 0]
  ∧ fetchListOf false (render mainLoaded) 1799999 mainLoaded = mainLoaded.
Proof.
  destruct (X14_getter_fetches_once_per_half_hour false initial 0 1799999
              eq_refl) as (Hr & Hsoon & _).
  split; [exact Hr|].
  destruct (Hsoon ltac:(lia)) as [_ Hsettled].
  exact (Hsettled (Resolves page0)).
Defined.

(** X15. A response is applied whenever it arrives.  If a refresh is forced
    while a load-more is in flight and the refresh is answered first, the
    list shows the refreshed first page; when the load-more's answer then
    arrives, the list shows the items that were cached when the load-more
    was issued followed by its page, and the refreshed page is gone, while
    the offset stays at 0. *)
Theorem X15_late_load_more_replaces_refreshed_page
    (c : bool) (st : TransactionsManager.State) (d : PaginatedTransactions)
    (now : Z) (p0 p1 : ListResponse) :
  errorOccuredDuringLastUpdate st = false →
  cached c st = Some d →
  resp_error p0 = false →
  resp_error p1 = false →
  let n := length (inflight st) in
  let st1 := fetchMoreOf c (render st) st in
  let st2 := forceUpdateOf c (render st1) now st1 in
  let st3 := deliver (S n) (Resolves p0) st2 in
  let st4 := deliver n (Resolves p1) st3 in
  (∃ d3, cached c st3 = Some d3 ∧ transactions d3 = kept p0)
  ∧ (∃ d4, cached c st4 = Some d4
           ∧ transactions d4 = transactions d ++ kept p1)
  ∧ offset st4 = 0%Z
  ∧ inflight st4 = inflight st.
Proof.
  intros He Hc Hp0 Hp1 n st1 st2 st3 st4.
  assert (Hst1 : st1 = _) by apply (fetchMoreOf_issued c st d He Hc).
  apply cached_Some in Hc.
  set (k1 := AwaitMore c (transactions d) (offset st + pageSize)
                       (lastUpdated st)) in *.
  assert (Hi1 : inflight st1 = inflight st ++ [k1]) by (by rewrite Hst1).
  assert (Hr1 : observableRef c st1 = Some (Maybe_of d))
    by (rewrite Hst1, <- Hc; by destruct c).
  destruct (forceUpdateOf_effects c (render st1) now st1)
    as (Ho2 & _ & _ & _ & _ & Hi2 & Href2).
  fold st2 in Ho2, Hi2, Href2. rewrite Hr1 in Href2. rewrite Hi1 in Hi2.
  set (k2 := AwaitForce c (r_lastUpdated (render st1))) in *.
  (* the refresh is answered first *)
  assert (Hst3 : st3 = settle k2 (Resolves p0)
                         (setInflight ((inflight st ++ [k1]) ++ []) st2)).
  { subst st3 n.
    replace (S (length (inflight st))) with (length (inflight st ++ [k1]))
      by (rewrite length_app; cbn; lia).
    by apply deliver_at. }
  rewrite app_nil_r in Hst3.
  set (st2' := setInflight (inflight st ++ [k1]) st2) in *.
  assert (Hsome2 : is_Some (observableRef c st2'))
    by (eexists; rewrite <- Href2; by destruct c).
  subst k2. cbn [settle] in Hst3. unfold onSuccess in Hst3.
  rewrite Hp0 in Hst3. fold (kept p0) in Hst3.
  destruct (next_effects c
              (Maybe_of (paginate (with_transactions p0 (kept p0)) 0
                                  (r_lastUpdated (render st1)))) st2' Hsome2)
    as (H31 & _ & H33 & _ & _ & _ & _ & _ & H39).
  rewrite <- Hst3 in H31, H33, H39.
  (* then the load-more *)
  assert (Hi3 : inflight st3 = inflight st ++ k1 :: []) by (by rewrite H39).
  assert (Hst4 : st4 = settle k1 (Resolves p1)
                         (setInflight (inflight st ++ []) st3))
    by (by apply deliver_at).
  rewrite app_nil_r in Hst4.
  set (st3' := setInflight (inflight st) st3) in *.
  assert (Hsome3 : is_Some (observableRef c st3'))
    by (eexists; rewrite <- H31; by destruct c).
  subst k1. cbn [settle] in Hst4. rewrite Hp1 in Hst4. fold (kept p1) in Hst4.
  match type of Hst4 with
  | _ = next c ?m _ =>
    destruct (next_effects c m st3' Hsome3)
      as (H41 & _ & H43 & _ & _ & _ & _ & _ & H49)
  end.
  rewrite <- Hst4 in H41, H43, H49.
  split; [|split; [|split]].
  - eexists. split; [apply cached_Some; exact H31|]. done.
  - eexists. split; [apply cached_Some; exact H41|]. done.
  - rewrite H43. change (offset st3') with (offset st3). rewrite H33.
    exact Ho2.
  - by rewrite H49.
Qed.

Lemma X15_late_load_more_replaces_refreshed_page_witness :
  let st2 := forceUpdate (render (fetchMore (render mainLoaded) mainLoaded))
               5000 (fetchMore (render mainLoaded) mainLoaded) in
  transactions <$>
    cached false (deliver 0 (Resolves page2) (deliver 1 (Resolves page1) st2))
  = Some [txn "t1" SUCCESS; txn "t2" PENDING; txn "t4" DECLINED].
Proof.
  cbv zeta.
  destruct (X15_late_load_more_replaces_refreshed_page false mainLoaded
              {| transactions := [txn "t1" SUCCESS; txn "t2" PENDING];
                 count := 45; hasNext := true; fetchedTimestamp := None;
                 showShimmer := false; totalCbAmount := None;
                 reqChkTxnCheckPoint1 := Some 120 |}
              5000 page1 page2 eq_refl eq_refl eq_refl eq_refl)
    as (_ & (d4 & Hc4 & Ht4) & _).
  change (cached false
            (deliver 0 (Resolves page2)
               (deliver 1 (Resolves page1)
                  (forceUpdate (render (fetchMore (render mainLoaded)
                                          mainLoaded))
                     5000 (fetchMore (render mainLoaded) mainLoaded))))
          = Some d4) in Hc4.
  rewrite Hc4. cbn. by rewrite Ht4.
Defined.

(** X16. A load-more that fails costs the list its items.  When the
    request is rejected or answered with an error reply, the failure is
    published in place of the page the list held, the offset keeps the
    advance made for the failed page, and the error flag stays clear. *)
Theorem X16_failed_load_more_drops_the_cached_page
    (c : bool) (s : Settlement) (st : TransactionsManager.State)
    (d : PaginatedTransactions) :
  errorOccuredDuringLastUpdate st = false →
  cached c st = Some d →
  failure s = true →
  let st' := loadedMoreOf c s st in
  cached c st' = None
  ∧ (∃ message, observableRef c st' = Some (Maybe_error message))
  ∧ offset st' = (offset st + pageSize)%Z
  ∧ errorOccuredDuringLastUpdate st' = false
  ∧ requests st' =
      requests st ++ [pageRequest c (filter st) (offset st + pageSize)]
  ∧ inflight st' = inflight st.
Proof.
  intros He Hc Hfail st'.
  destruct (loadedMoreOf_effects c s st d He Hc)
    as (Href & Ho & He' & _ & Hi & Hr).
  fold st' in Href, Ho, He', Hi, Hr.
  assert (Hm : ∃ message,
            moreResult c (transactions d) (offset st + pageSize)
                       (lastUpdated st) s = Maybe_error message).
  { destruct s as [err | res]; cbn [moreResult failure] in *; [eauto|].
    rewrite Hfail. eauto. }
  destruct Hm as [message Hm]. rewrite Hm in Href.
  split; [unfold cached; by rewrite Href|].
  split; [by exists message|]. done.
Qed.

Lemma X16_failed_load_more_drops_the_cached_page_witness :
  cached false (loadedMoreOf false (Rejects None) mainLoaded) = None
  ∧ offset (loadedMoreOf false (Rejects None) mainLoaded) = 20%Z.
Proof.
  destruct (X16_failed_load_more_drops_the_cached_page false (Rejects None)
              mainLoaded
              {| transactions := [txn "t1" SUCCESS; txn "t2" PENDING];
                 count := 45; hasNext := true; fetchedTimestamp := None;
                 showShimmer := false; totalCbAmount := None;
                 reqChkTxnCheckPoint1 := Some 120 |}
              eq_refl eq_refl eq_refl) as (Hc & _ & Ho & _).
  split; [exact Hc | exact Ho].
Defined.

Lemma forceUpdateOf_subscription c r now st :
  paymentSubscriptionRef (forceUpdateOf c r now st) = paymentSubscriptionRef st.
Proof.
  unfold forceUpdateOf, next.
  destruct (observableRef c _); destruct c; reflexivity.
Qed.

Lemma changeFilter_vars ch now st :
  let st' := changeFilter ch now st in
  filter st' = newFilter ch st
  ∧ dateMode st' = newDateMode ch st
  ∧ paymentSubscriptionRef st' = paymentSubscriptionRef st.
Proof.
  unfold changeFilter.
  destruct ch; cbn zeta;
    unfold applyFilter, applyDateMode, clearFilter, clearDateMode,
      clearFilterWithUpdate, filterforupiId, upiLitefilter, forceUpdate;
    match goal with
    | |- context [forceUpdateOf false ?r now ?s] =>
        destruct (forceUpdateOf_effects false r now s)
          as (_ & Hf & Hd & _);
        pose proof (forceUpdateOf_subscription false r now s) as Hp
    end; rewrite Hf, Hd, Hp; done.
Qed.

(** X17. What the filter readers report after a change.  In the render
    that follows any of the seven changes, [getAppliedFilter] and
    [getAppliedDateMode] return the values just set, a change of one of the
    two leaving the other as it was (only [clearFilterWithUpdate] clears
    both); [isFilterApplied] is false after the two clearing calls, true
    after a payee-address or wallet filter whatever the text given, and
    after [applyFilter] true exactly when the object given has a key. *)
Theorem X17_filter_readers_after_a_change
    (ch : FilterChange) (now : Z) (st : TransactionsManager.State) :
  let r' := render (changeFilter ch now st) in
  getAppliedFilter r' = newFilter ch st
  ∧ getAppliedDateMode r' = newDateMode ch st
  ∧ isFilterApplied r' =
      match ch with
      | ApplyFilter f => negb (bool_decide (f = ∅))
      | ClearFilter | ClearFilterWithUpdate => false
      | FilterForUpiId _ | UpiLiteFilter _ => true
      | ApplyDateMode _ | ClearDateMode => isFilterApplied (render st)
      end
  ∧ isDateModeApplied r' =
      match ch with
      | ApplyDateMode d => negb (bool_decide (d = ∅))
      | ClearDateMode | ClearFilterWithUpdate => false
      | _ => isDateModeApplied (render st)
      end.
Proof.
  cbv zeta. destruct (changeFilter_vars ch now st) as (Hf & Hd & _).
  unfold getAppliedFilter, getAppliedDateMode, isFilterApplied,
    isDateModeApplied. cbn [render r_filter r_dateMode]. rewrite Hf, Hd.
  split; [done|]. split; [done|].
  destruct ch; cbn [newFilter newDateMode]; split; done.
Qed.

(** X18. The refresh that a payment event triggers is the [forceUpdate] of
    the render that subscribed.  If the filter is changed after the
    subscription was made, a recognized event still sends its first-page
    request under the filter in force when the subscription was made, while
    the state holds the new filter. *)
Theorem X18_event_refresh_uses_the_subscribed_filter
    (st : TransactionsManager.State) (ch : FilterChange) (now now' : Z)
    (action : PaymentAction.t) :
  recognized action = true →
  let st1 := subscribePaymentActions (render st) st in
  let st2 := changeFilter ch now st1 in
  let st3 := emit action now' st2 in
  filter st3 = newFilter ch st
  ∧ offset st3 = 0%Z
  ∧ requests st3 =
      requests st ++ [pageRequest false (filter st) 0;
                      pageRequest false (filter st) 0].
Proof.
  intros Hrec st1 st2 st3.
  destruct (changeFilter_vars ch now st1) as (Hf & _ & Hp).
  destruct (changeFilter_effects ch now st1) as (_ & _ & Hr & _).
  fold st2 in Hf, Hp, Hr.
  assert (Hst3 : st3 = forceUpdate (render st) now' st2).
  { subst st3. unfold emit. rewrite Hp. cbn. by rewrite Hrec. }
  destruct (forceUpdateOf_effects false (render st) now' st2)
    as (Ho3 & Hf3 & _ & _ & Hr3 & _).
  unfold forceUpdate in Hst3. rewrite <- Hst3 in Ho3, Hf3, Hr3.
  rewrite Hf3, Hf, Ho3, Hr3, Hr. split; [by destruct ch|]. split; [done|].
  by rewrite <- app_assoc.
Qed.

Lemma X18_event_refresh_uses_the_subscribed_filter_witness :
  requestFilter <$>
    last (requests
            (emit PaymentAction.APPROVED 9000
               (changeFilter (FilterForUpiId "asha@upi") 8000
                  (subscribePaymentActions (render mainLoaded) mainLoaded))))
  = Some ∅.
Proof.
  destruct (X18_event_refresh_uses_the_subscribed_filter mainLoaded
              (FilterForUpiId "asha@upi") 8000 9000 PaymentAction.APPROVED
              eq_refl) as (_ & _ & Hr).
  rewrite Hr. reflexivity.
Defined.

(** X19. A forced refresh that fails publishes the failure in place of
    whatever the list held, with a message that is never empty (the reply's
    own message, or "An error occurred"), and the list is then not due
    again until 30 minutes after the failed attempt. *)
Theorem X19_failed_refresh_is_not_retried_before_ttl
    (c : bool) (now now' : Z) (s : Settlement)
    (st : TransactionsManager.State) :
  failure s = true →
  let st' := refreshedOf c now s st in
  (∃ message, observableRef c st' = Some (Maybe_error message)
              ∧ message ≠ "")
  ∧ cached c st' = None
  ∧ ((now' - now < 1800000)%Z →
     shouldUpdateOf c (render st') now' st' = false
     ∧ fetchListOf c (render st') now' st' = st').
Proof.
  intros Hfail st'.
  destruct (refreshedOf_effects c now s st)
    as (Href & _ & _ & _ & Hlu & He & _).
  fold st' in Href, Hlu, He.
  assert (Hnonempty : ∀ u, createError u ≠ "").
  { intros [m|]; cbn; [|done]. by case_bool_decide. }
  assert (Hm : ∃ message, observableRef c st' = Some (Maybe_error message)
                          ∧ message ≠ "").
  { destruct s as [err | res]; cbn [failure] in Hfail.
    - exists (createError err). by split.
    - rewrite Hfail in Href. exists (createError (userMessage res)).
      by split. }
  split; [done|]. destruct Hm as (message & Hmsg & _).
  split; [unfold cached; by rewrite Hmsg|].
  intros Hsoon.
  assert (Hdue : shouldUpdateOf c (render st') now' st' = false).
  { unfold shouldUpdateOf, shouldUpdateCircleHistory, shouldUpdate, hasExpired.
    cbn [render r_errorOccuredDuringLastUpdate r_lastUpdated].
    rewrite He, Hlu.
    assert (Hno : (30 * 60 * 1000 <=? now' - now)%Z = false)
      by (apply Z.leb_gt; lia).
    destruct c; cbn [observableRef] in Hmsg; rewrite Hmsg;
      rewrite bool_decide_eq_true_2 by eauto; cbn; by rewrite Hno. }
  split; [done|].
  unfold fetchListOf, fetchCircleTransactionList, fetchTransactionsList,
    shouldUpdateOf in *.
  destruct c; by rewrite Hdue.
Qed.

Lemma X19_failed_refresh_is_not_retried_before_ttl_witness :
  observableRef false (refreshedOf false 1000 (Rejects (Some "")) mainLoaded)
    = Some (Maybe_error "An error occurred")
  ∧ shouldUpdate (render (refreshedOf false 1000 (Rejects (Some ""))
                            mainLoaded))
      1800999 (refreshedOf false 1000 (Rejects (Some "")) mainLoaded)
    = false.
Proof.
  split; [reflexivity|].
  destruct (X19_failed_refresh_is_not_retried_before_ttl false 1000 1800999
              (Rejects (Some "")) mainLoaded eq_refl) as (_ & _ & H).
  destruct (H ltac:(lia)) as [Hdue _]. exact Hdue.
Defined.

End SessionFacts.
